(** * ROTRON.C2C — the hardware control stack

    A shallow embedding of the four classes under [C2C/hardware]:

    - [ESP32Serial]       (serial_link.py)  the link layer,
    - [MotionQueue]       (motion_queue.py) the acknowledgment-gated queue,
    - [Watchdog]          (watchdog.py)     the communication monitor,
    - [ESP32Communicator] (esp32_comm.py)   the orchestrator.

    Conventions of the embedding.

    - A method is a function from the object's state to an [Outcome]: it
      returns a value, raises, or is left waiting for a lock that is held.
      Every field of [self] that a method writes is a field of the state
      record.
    - [threading.Lock] is a mutual-exclusion lock that is NOT re-entrant:
      [with self.lock:] waits while the lock is held, also when the holder
      is the calling thread itself.  The lock is a boolean field, and
      [with_lock] is the [with] statement.  A caller that waits goes on
      only when the holder releases the lock; when the holder is the
      caller, one frame up, nobody does, and the call never returns.
    - [time.time()] is read from the environment: each method that reads the
      clock takes the reading as an argument.  Times are rationals.
    - The outcome of a write on the serial port is decided by the
      environment too: each method that may write takes a [Transport].
    - Subscribers (the [on_*] attributes) belong to the caller.  The state
      records whether one is registered, and each invocation is appended to
      a list of calls; whatever a subscriber raises is caught at the call
      site, as the [try/except Exception] around it says.
    - Strings are [string] (byte strings).  The separators the code looks
      for are ASCII, so splitting the UTF-8 bytes agrees with splitting the
      decoded text. *)

From Stdlib Require Import ZArith QArith List String Ascii Bool Lia.
From Stdlib Require Import Qabs Lqa.
Import ListNotations.

Local Open Scope string_scope.
Local Open Scope list_scope.
Local Open Scope Z_scope.

(** ** Effects *)

Inductive Exn : Type :=
| WatchdogTimeout (elapsed : Q)
| AttributeError.

Inductive Outcome (S A : Type) : Type :=
| Returns (a : A) (s : S)
| Raises (e : Exn) (s : S)
| Blocks (s : S).

Arguments Returns {S A} a s.
Arguments Raises {S A} e s.
Arguments Blocks {S A} s.

Definition M (S A : Type) : Type := S -> Outcome S A.

Definition ret {S A} (a : A) : M S A := fun s => Returns a s.

Definition bind {S A B} (m : M S A) (k : A -> M S B) : M S B :=
  fun s =>
    match m s with
    | Returns a s' => k a s'
    | Raises e s' => Raises e s'
    | Blocks s' => Blocks s'
    end.

Definition get {S} : M S S := fun s => Returns s s.

Definition modify {S} (f : S -> S) : M S unit := fun s => Returns tt (f s).

Definition raise {S A} (e : Exn) : M S A := fun s => Raises e s.

Definition when {S} (b : bool) (m : M S unit) : M S unit :=
  if b then m else ret tt.

Notation "x <- m ;; k" := (bind m (fun x => k))
  (at level 61, m at next level, right associativity).
Notation "m ;; k" := (bind m (fun _ => k))
  (at level 61, right associativity).

(** The state a method leaves behind, whichever way it ends.  For [Blocks]
    this is the state in which the caller is left waiting, with whatever
    it wrote before it tried to take the lock. *)
Definition state_of {S A} (o : Outcome S A) : S :=
  match o with
  | Returns _ s => s
  | Raises _ s => s
  | Blocks s => s
  end.

Definition returned {S A} (o : Outcome S A) : option A :=
  match o with
  | Returns a _ => Some a
  | _ => None
  end.

Class Lockable (S : Type) : Type := {
  lock_held : S -> bool;
  set_lock : bool -> S -> S
}.

(** [with self.lock: body].  The caller waits when the lock is held; the
    lock is released when the body returns and when it raises, and stays
    held when the body itself is left waiting. *)
Definition with_lock {S A} `{Lockable S} (body : M S A) : M S A :=
  fun s =>
    if lock_held s then Blocks s
    else
      match body (set_lock true s) with
      | Returns a s' => Returns a (set_lock false s')
      | Raises e s' => Raises e (set_lock false s')
      | Blocks s' => Blocks s'
      end.

(** ** Python helpers *)

Definition newline : string := String (ascii_of_nat 10) EmptyString.

(** [s.endswith(suffix)] *)
Definition endswith (s suffix : string) : bool :=
  let n := String.length s in
  let k := String.length suffix in
  if Nat.leb k n then String.eqb (substring (n - k) k s) suffix else false.

(** [s.startswith(p)] *)
Fixpoint startswith (s p : string) {struct p} : bool :=
  match p with
  | EmptyString => true
  | String b p' =>
      match s with
      | EmptyString => false
      | String a s' => Ascii.eqb a b && startswith s' p'
      end
  end.

(** [c in s] for a one-character [c] *)
Fixpoint contains (c : ascii) (s : string) : bool :=
  match s with
  | EmptyString => false
  | String a rest => if Ascii.eqb a c then true else contains c rest
  end.

(** [s.split(c, 1)] for a one-character separator: the text before the first
    [c] and the text after it, or [s] alone when [c] does not occur. *)
Fixpoint split1 (c : ascii) (s : string) : list string :=
  match s with
  | EmptyString => [EmptyString]
  | String a rest =>
      if Ascii.eqb a c then [EmptyString; rest]
      else
        match split1 c rest with
        | hd :: tl => String a hd :: tl
        | [] => []
        end
  end.

(** [l[-n:]] *)
Definition last_n {A} (n : Z) (l : list A) : list A :=
  let len := Z.of_nat (List.length l) in
  let i := - n in
  let start := if i <? 0 then Z.max 0 (len + i) else Z.min i len in
  skipn (Z.to_nat start) l.

Definition len {A} (l : list A) : Z := Z.of_nat (List.length l).

Definition Qgtb (x y : Q) : bool := negb (Qle_bool x y).
Definition Qltb (x y : Q) : bool := negb (Qle_bool y x).

(** ** serial_link.py *)

Module ESP32Serial.

(** What the port does with one [write] followed by [flush]. *)
Inductive Transport : Type :=
| TxOk
| TxWriteRaises
| TxFlushRaises.

(** One invocation of a subscriber by [_handle_message]. *)
Inductive Call : Type :=
| OnMessage (msg : string)
| OnAckMove
| OnDoneMove
| OnAckStop
| OnFault (fault_type : string)
| OnHeartbeat.

Record t : Type := mk {
  connected : bool;
  ser : option (list string);   (* the open port: what was written to it *)
  last_ack : option string;
  last_ack_time : Q;
  on_ack_move : bool;
  on_done_move : bool;
  on_ack_stop : bool;
  on_fault : bool;
  on_heartbeat : bool;
  on_message : bool
}.

Definition set_ser (w : option (list string)) (s : t) : t :=
  mk (connected s) w (last_ack s) (last_ack_time s) (on_ack_move s)
     (on_done_move s) (on_ack_stop s) (on_fault s) (on_heartbeat s)
     (on_message s).

Definition set_last_ack (m : option string) (tm : Q) (s : t) : t :=
  mk (connected s) (ser s) m tm (on_ack_move s) (on_done_move s)
     (on_ack_stop s) (on_fault s) (on_heartbeat s) (on_message s).

Definition set_on_done_move (b : bool) (s : t) : t :=
  mk (connected s) (ser s) (last_ack s) (last_ack_time s) (on_ack_move s)
     b (on_ack_stop s) (on_fault s) (on_heartbeat s) (on_message s).

Definition set_on_fault (b : bool) (s : t) : t :=
  mk (connected s) (ser s) (last_ack s) (last_ack_time s) (on_ack_move s)
     (on_done_move s) (on_ack_stop s) b (on_heartbeat s) (on_message s).

Definition set_connected (b : bool) (s : t) : t :=
  mk b (ser s) (last_ack s) (last_ack_time s) (on_ack_move s)
     (on_done_move s) (on_ack_stop s) (on_fault s) (on_heartbeat s)
     (on_message s).

Definition set_on_message (b : bool) (s : t) : t :=
  mk (connected s) (ser s) (last_ack s) (last_ack_time s) (on_ack_move s)
     (on_done_move s) (on_ack_stop s) (on_fault s) (on_heartbeat s) b.

(** [ESP32Serial.__init__] *)
Definition init : t :=
  mk false None None 0%Q false false false false false false.

(** [ESP32Serial.connect], after the port has been chosen: [opened] says
    whether [serial.Serial(...)] opened it.  A fresh port has nothing
    written to it. *)
Definition connect (opened : bool) (s : t) : bool * t :=
  if connected s then (true, s)
  else if opened then (true, set_connected true (set_ser (Some []) s))
  else (false, set_connected false s).

(** Everything written to the port so far. *)
Definition wire (s : t) : list string :=
  match ser s with
  | Some w => w
  | None => []
  end.

(** [ESP32Serial.send] *)
Definition send (tx : Transport) (command : string) (s : t) : bool * t :=
  match connected s, ser s with
  | true, Some w =>
      let command' :=
        if endswith command newline then command
        else (command ++ newline)%string in
      match tx with
      | TxWriteRaises => (false, s)
      | TxFlushRaises => (false, set_ser (Some (w ++ [command'])) s)
      | TxOk => (true, set_ser (Some (w ++ [command'])) s)
      end
  | _, _ => (false, s)
  end.

Definition call_if (registered : bool) (c : Call) : list Call :=
  if registered then [c] else [].

(** [ESP32Serial._handle_message]: the new state and the subscribers
    invoked, in order. *)
Definition _handle_message (now : Q) (msg : string) (s : t) : t * list Call :=
  let s' := set_last_ack (Some msg) now s in
  let generic := call_if (on_message s) (OnMessage msg) in
  let specific :=
    if String.eqb msg "ACK:MOVE" then call_if (on_ack_move s) OnAckMove
    else if String.eqb msg "DONE:MOVE" then call_if (on_done_move s) OnDoneMove
    else if String.eqb msg "ACK:STOP" then call_if (on_ack_stop s) OnAckStop
    else if startswith msg "FAULT:" then
      let fault_type :=
        if contains ":" msg then nth 1 (split1 ":" msg) "" else "UNKNOWN" in
      call_if (on_fault s) (OnFault fault_type)
    else if String.eqb msg "HB" then call_if (on_heartbeat s) OnHeartbeat
    else [] in
  (s', generic ++ specific).

(** What [send] writes for a command: the command, with a newline after
    it unless it ends with one. *)
Definition terminated (command : string) : string :=
  if endswith command newline then command else (command ++ newline)%string.

(** [ESP32Serial.disconnect].  The port object stays in [self.ser], closed;
    [send] looks at [self.connected] before it looks at the port. *)
Definition disconnect (s : t) : t :=
  if connected s then set_connected false s else s.

(** [ESP32Serial.is_connected] *)
Definition is_connected (s : t) : bool := connected s.

(** [ESP32Serial.get_last_ack] *)
Definition get_last_ack (s : t) : option string * Q :=
  (last_ack s, last_ack_time s).

(** The inner loop of [ESP32Serial._listen],
    [while '\n' in buffer: line, buffer = buffer.split('\n', 1)]:
    the lines it takes off the buffer, in order, and the buffer it leaves.
    Each turn of the loop uses one unit of [fuel]. *)
Fixpoint take_lines (fuel : nat) (buffer : string) : list string * string :=
  match fuel with
  | O => ([], buffer)
  | S fuel' =>
      if contains (ascii_of_nat 10) buffer then
        match split1 (ascii_of_nat 10) buffer with
        | line :: rest :: _ =>
            let (lines, buffer') := take_lines fuel' rest in
            (line :: lines, buffer')
        | _ => ([], buffer)
        end
      else ([], buffer)
  end.

(** The text that [lines], each followed by a newline, and [rest] after
    them make up. *)
Definition joined (lines : list string) (rest : string) : string :=
  fold_right (fun line acc => (line ++ newline ++ acc)%string) rest lines.

(** [msg = line.strip()] and [if msg: self._handle_message(msg)] for each
    line taken: the messages handled, in order.  [strip] stands for
    [str.strip]. *)
Definition messages (strip : string -> string) (lines : list string)
  : list string :=
  filter (fun msg => negb (String.eqb msg "")) (map strip lines).

(** One turn of the outer loop of [_listen] that finds data waiting:
    [text] is the decoded data, [buffer] the text kept from earlier turns.
    The result is the messages handled and the buffer kept. *)
Definition _listen (strip : string -> string) (buffer text : string)
  : list string * string :=
  let buffer := (buffer ++ text)%string in
  let (lines, buffer') := take_lines (S (String.length buffer)) buffer in
  (messages strip lines, buffer').

End ESP32Serial.

(** ** motion_queue.py *)

Module MotionQueue.

Record t : Type := mk {
  serial : ESP32Serial.t;
  queue : list string;
  max_size : Z;
  busy : bool;
  current_command : option string;
  command_start_time : Q;
  commands_sent : Z;
  commands_completed : Z;
  commands_dropped : Z;
  lock : bool
}.

Definition set_serial (x : ESP32Serial.t) (s : t) : t :=
  mk x (queue s) (max_size s) (busy s) (current_command s)
     (command_start_time s) (commands_sent s) (commands_completed s)
     (commands_dropped s) (lock s).

Definition set_queue (x : list string) (s : t) : t :=
  mk (serial s) x (max_size s) (busy s) (current_command s)
     (command_start_time s) (commands_sent s) (commands_completed s)
     (commands_dropped s) (lock s).

Definition set_busy (x : bool) (s : t) : t :=
  mk (serial s) (queue s) (max_size s) x (current_command s)
     (command_start_time s) (commands_sent s) (commands_completed s)
     (commands_dropped s) (lock s).

Definition set_current_command (x : option string) (s : t) : t :=
  mk (serial s) (queue s) (max_size s) (busy s) x
     (command_start_time s) (commands_sent s) (commands_completed s)
     (commands_dropped s) (lock s).

Definition set_command_start_time (x : Q) (s : t) : t :=
  mk (serial s) (queue s) (max_size s) (busy s) (current_command s)
     x (commands_sent s) (commands_completed s)
     (commands_dropped s) (lock s).

Definition set_commands_sent (x : Z) (s : t) : t :=
  mk (serial s) (queue s) (max_size s) (busy s) (current_command s)
     (command_start_time s) x (commands_completed s)
     (commands_dropped s) (lock s).

Definition set_commands_completed (x : Z) (s : t) : t :=
  mk (serial s) (queue s) (max_size s) (busy s) (current_command s)
     (command_start_time s) (commands_sent s) x
     (commands_dropped s) (lock s).

Definition set_commands_dropped (x : Z) (s : t) : t :=
  mk (serial s) (queue s) (max_size s) (busy s) (current_command s)
     (command_start_time s) (commands_sent s) (commands_completed s)
     x (lock s).

Definition set_lock_field (x : bool) (s : t) : t :=
  mk (serial s) (queue s) (max_size s) (busy s) (current_command s)
     (command_start_time s) (commands_sent s) (commands_completed s)
     (commands_dropped s) x.

#[export] Instance lockable : Lockable t :=
  {| lock_held := lock; set_lock := set_lock_field |}.

(** [MotionQueue.__init__], [_setup_callbacks] included: the queue takes
    the link's done-move and fault subscriptions. *)
Definition init (serial_link : ESP32Serial.t) (max_size : Z) : t :=
  mk (ESP32Serial.set_on_fault true
        (ESP32Serial.set_on_done_move true serial_link))
     [] max_size false None 0%Q 0 0 0 false.

(** [self.serial.send(command)] *)
Definition serial_send (tx : ESP32Serial.Transport) (command : string)
  : M t bool :=
  fun s =>
    let (ok, link) := ESP32Serial.send tx command (serial s) in
    Returns ok (set_serial link s).

(** [MotionQueue.add] *)
Definition add (command : string) : M t bool :=
  with_lock (
    s <- get ;;
    if len (queue s) >=? max_size s then
      modify (set_commands_dropped (commands_dropped s + 1)) ;;
      ret false
    else
      modify (set_queue (queue s ++ [command])) ;;
      ret true).

(** The four assignments of [update] after a successful send, one
    statement each. *)
Definition update_sent (now : Q) (command : string) : list (t -> t) :=
  [ set_busy true;
    set_current_command (Some command);
    set_command_start_time now;
    fun s => set_commands_sent (commands_sent s + 1) s ].

Definition statements (l : list (t -> t)) : M t unit :=
  modify (fun s => fold_left (fun acc f => f acc) l s).

(** [MotionQueue.update] *)
Definition update (now : Q) (tx : ESP32Serial.Transport) : M t unit :=
  with_lock (
    s <- get ;;
    if busy s then ret tt
    else
      match queue s with
      | [] => ret tt
      | command :: rest =>
          modify (set_queue rest) ;;                      (* popleft *)
          sent <- serial_send tx command ;;
          if sent then statements (update_sent now command)
          else modify (fun s' => set_queue (command :: queue s') s')
                                                          (* appendleft *)
      end).

(** The state inside [update] when the send has succeeded and the first
    [n] of the assignments that follow have run.  The lock is still held.
    [None] when [update] does not get that far. *)
Definition update_midway (n : nat) (now : Q) (tx : ESP32Serial.Transport)
    (s : t) : option t :=
  if lock s then None
  else
    let s1 := set_lock_field true s in
    if busy s1 then None
    else
      match queue s1 with
      | [] => None
      | command :: rest =>
          let (ok, link) := ESP32Serial.send tx command (serial s1) in
          if ok then
            Some (fold_left (fun acc f => f acc)
                    (firstn n (update_sent now command))
                    (set_serial link (set_queue rest s1)))
          else None
      end.

(** [MotionQueue.on_done] *)
Definition on_done : M t unit :=
  with_lock (
    s <- get ;;
    if negb (busy s) then ret tt
    else
      modify (set_busy false) ;;
      modify (set_current_command None) ;;
      modify (fun s' =>
                set_commands_completed (commands_completed s' + 1) s')).

(** [MotionQueue.clear] *)
Definition clear : M t unit :=
  with_lock (modify (set_queue [])).

(** [MotionQueue.emergency_stop]: [self.clear()] is called with the lock
    already taken by the enclosing [with]. *)
Definition emergency_stop (tx : ESP32Serial.Transport) : M t unit :=
  with_lock (
    clear ;;
    serial_send tx "$STOP$" ;;
    modify (set_busy false) ;;
    modify (set_current_command None)).

(** [MotionQueue.is_busy] and [get_queue_size]: plain attribute reads. *)
Definition is_busy (s : t) : bool := busy s.
Definition get_queue_size (s : t) : Z := len (queue s).

Record Stats : Type := mkStats {
  queued : Z;
  stat_busy : bool;
  sent : Z;
  completed : Z;
  dropped : Z;
  current : option string
}.

(** [MotionQueue.get_stats]: builds the dictionary from the attributes;
    there is no [with self.lock] in it. *)
Definition get_stats (s : t) : Stats :=
  mkStats (len (queue s)) (busy s) (commands_sent s)
          (commands_completed s) (commands_dropped s) (current_command s).

(** One poll of [MotionQueue.wait_until_empty]: the test made under the
    lock at the top of its loop. *)
Definition wait_until_empty_poll : M t bool :=
  with_lock (
    s <- get ;;
    ret (negb (busy s) && (len (queue s) =? 0))).

(** The operations a client, the reader loop and the control loop apply
    to a queue. *)
Inductive Op : Type :=
| Add (command : string)
| Update (now : Q) (tx : ESP32Serial.Transport)
| OnDone
| Clear
| EmergencyStop (tx : ESP32Serial.Transport).

Definition step (op : Op) (s : t) : t :=
  match op with
  | Add command => state_of (add command s)
  | Update now tx => state_of (update now tx s)
  | OnDone => state_of (on_done s)
  | Clear => state_of (clear s)
  | EmergencyStop tx => state_of (emergency_stop tx s)
  end.

Definition run (ops : list Op) (s : t) : t :=
  fold_left (fun acc op => step op acc) ops s.

(** The data-model invariant of the queue state. *)
Definition busy_iff_current (s : t) : Prop :=
  current_command s <> None <-> busy s = true.

(** An idle queue with its lock free, on a connected link with an open
    port that has [w] written to it, holding the commands [q]. *)
Definition ready (s : t) (w q : list string) : Prop :=
  lock s = false /\ busy s = false /\ queue s = q /\
  ESP32Serial.connected (serial s) = true /\
  ESP32Serial.ser (serial s) = Some w.

End MotionQueue.

(** ** watchdog.py *)

Module Watchdog.

(** One invocation of a subscriber of the watchdog. *)
Inductive Call : Type :=
| OnTimeout (elapsed : Q)
| OnRecovery.

Record t : Type := mk {
  timeout : Q;
  enable_heartbeat : bool;
  last_response : Q;
  last_heartbeat : Q;
  enabled : bool;
  fault_detected : bool;
  kick_count : Z;
  timeout_count : Z;
  heartbeat_count : Z;
  on_timeout : bool;
  on_recovery : bool;
  lock : bool;
  calls : list Call        (* subscriber invocations so far, oldest first *)
}.

Definition set_timeout_field (x : Q) (s : t) : t :=
  mk x (enable_heartbeat s) (last_response s) (last_heartbeat s)
     (enabled s) (fault_detected s) (kick_count s) (timeout_count s)
     (heartbeat_count s) (on_timeout s) (on_recovery s) (lock s) (calls s).

Definition set_last_response (x : Q) (s : t) : t :=
  mk (timeout s) (enable_heartbeat s) x (last_heartbeat s)
     (enabled s) (fault_detected s) (kick_count s) (timeout_count s)
     (heartbeat_count s) (on_timeout s) (on_recovery s) (lock s) (calls s).

Definition set_last_heartbeat (x : Q) (s : t) : t :=
  mk (timeout s) (enable_heartbeat s) (last_response s) x
     (enabled s) (fault_detected s) (kick_count s) (timeout_count s)
     (heartbeat_count s) (on_timeout s) (on_recovery s) (lock s) (calls s).

Definition set_enabled (x : bool) (s : t) : t :=
  mk (timeout s) (enable_heartbeat s) (last_response s) (last_heartbeat s)
     x (fault_detected s) (kick_count s) (timeout_count s)
     (heartbeat_count s) (on_timeout s) (on_recovery s) (lock s) (calls s).

Definition set_fault_detected (x : bool) (s : t) : t :=
  mk (timeout s) (enable_heartbeat s) (last_response s) (last_heartbeat s)
     (enabled s) x (kick_count s) (timeout_count s)
     (heartbeat_count s) (on_timeout s) (on_recovery s) (lock s) (calls s).

Definition set_kick_count (x : Z) (s : t) : t :=
  mk (timeout s) (enable_heartbeat s) (last_response s) (last_heartbeat s)
     (enabled s) (fault_detected s) x (timeout_count s)
     (heartbeat_count s) (on_timeout s) (on_recovery s) (lock s) (calls s).

Definition set_timeout_count (x : Z) (s : t) : t :=
  mk (timeout s) (enable_heartbeat s) (last_response s) (last_heartbeat s)
     (enabled s) (fault_detected s) (kick_count s) x
     (heartbeat_count s) (on_timeout s) (on_recovery s) (lock s) (calls s).

Definition set_heartbeat_count (x : Z) (s : t) : t :=
  mk (timeout s) (enable_heartbeat s) (last_response s) (last_heartbeat s)
     (enabled s) (fault_detected s) (kick_count s) (timeout_count s)
     x (on_timeout s) (on_recovery s) (lock s) (calls s).

Definition set_on_timeout (x : bool) (s : t) : t :=
  mk (timeout s) (enable_heartbeat s) (last_response s) (last_heartbeat s)
     (enabled s) (fault_detected s) (kick_count s) (timeout_count s)
     (heartbeat_count s) x (on_recovery s) (lock s) (calls s).

Definition set_lock_field (x : bool) (s : t) : t :=
  mk (timeout s) (enable_heartbeat s) (last_response s) (last_heartbeat s)
     (enabled s) (fault_detected s) (kick_count s) (timeout_count s)
     (heartbeat_count s) (on_timeout s) (on_recovery s) x (calls s).

Definition set_calls (x : list Call) (s : t) : t :=
  mk (timeout s) (enable_heartbeat s) (last_response s) (last_heartbeat s)
     (enabled s) (fault_detected s) (kick_count s) (timeout_count s)
     (heartbeat_count s) (on_timeout s) (on_recovery s) (lock s) x.

#[export] Instance lockable : Lockable t :=
  {| lock_held := lock; set_lock := set_lock_field |}.

(** [Watchdog.__init__]; the two timers start at the clock readings
    [t1] and [t2]. *)
Definition init (timeout : Q) (enable_heartbeat : bool) (t1 t2 : Q) : t :=
  mk timeout enable_heartbeat t1 t2 true false 0 0 0 false false false [].

(** [if self.on_x: try: self.on_x(...) except Exception: ...] *)
Definition invoke (registered : bool) (c : Call) : M t unit :=
  when registered (modify (fun s => set_calls (calls s ++ [c]) s)).

(** [Watchdog.kick] *)
Definition kick (now : Q) : M t unit :=
  with_lock (
    modify (set_last_response now) ;;
    modify (fun s => set_kick_count (kick_count s + 1) s) ;;
    s <- get ;;
    when (fault_detected s) (
      modify (set_fault_detected false) ;;
      invoke (on_recovery s) OnRecovery)).

(** [Watchdog.heartbeat]: [self.kick()] is called with the lock already
    taken by the enclosing [with]; [now'] is the clock reading inside
    [kick]. *)
Definition heartbeat (now now' : Q) : M t unit :=
  with_lock (
    modify (set_last_heartbeat now) ;;
    modify (fun s => set_heartbeat_count (heartbeat_count s + 1) s) ;;
    kick now').

(** The body shared by the two branches of [check]: flag the fault, count
    it, tell the subscriber, raise. *)
Definition fault (elapsed : Q) : M t unit :=
  modify (set_fault_detected true) ;;
  modify (fun s => set_timeout_count (timeout_count s + 1) s) ;;
  s <- get ;;
  invoke (on_timeout s) (OnTimeout elapsed) ;;
  raise (WatchdogTimeout elapsed).

(** [Watchdog.check] *)
Definition check (now : Q) : M t unit :=
  fun s0 =>
    if negb (enabled s0) then Returns tt s0
    else
      with_lock (
        s <- get ;;
        let time_since_response := (now - last_response s)%Q in
        when (Qgtb time_since_response (timeout s)) (
          when (negb (fault_detected s)) (fault time_since_response)) ;;
        s <- get ;;
        when (enable_heartbeat s) (
          let time_since_heartbeat := (now - last_heartbeat s)%Q in
          let heartbeat_timeout := (timeout s * (3 # 2))%Q in
          when (Qgtb time_since_heartbeat heartbeat_timeout) (
            when (negb (fault_detected s)) (fault time_since_heartbeat)))) s0.

(** [Watchdog.is_healthy] *)
Definition is_healthy (now : Q) : M t bool :=
  with_lock (
    s <- get ;;
    ret (Qltb (now - last_response s)%Q (timeout s))).

(** [Watchdog.enable] *)
Definition enable (now : Q) : M t unit :=
  with_lock (
    modify (set_enabled true) ;;
    modify (set_last_response now)).

(** [Watchdog.disable] *)
Definition disable : M t unit :=
  with_lock (modify (set_enabled false)).

(** [Watchdog.reset]; [t1] and [t2] are its two clock readings. *)
Definition reset (t1 t2 : Q) : M t unit :=
  with_lock (
    modify (set_last_response t1) ;;
    modify (set_last_heartbeat t2) ;;
    modify (set_fault_detected false)).

Record Stats : Type := mkStats {
  stat_enabled : bool;
  healthy : bool;
  time_since_response : Q;
  time_since_heartbeat : Q;
  stat_kick_count : Z;
  stat_timeout_count : Z;
  stat_heartbeat_count : Z;
  stat_fault_detected : bool
}.

(** [Watchdog.get_stats]: the dictionary display evaluates
    ['enabled'] and then [self.is_healthy()], under the lock taken by
    the enclosing [with]. *)
Definition get_stats (now now' : Q) : M t Stats :=
  with_lock (
    s <- get ;;
    h <- is_healthy now' ;;
    s' <- get ;;
    ret (mkStats (enabled s) h
           (now - last_response s')%Q (now - last_heartbeat s')%Q
           (kick_count s') (timeout_count s') (heartbeat_count s')
           (fault_detected s'))).

(** [Watchdog.set_timeout] *)
Definition set_timeout (x : Q) : M t unit :=
  with_lock (modify (set_timeout_field x)).

Inductive Op : Type :=
| Kick (now : Q)
| Heartbeat (now now' : Q)
| Check (now : Q)
| IsHealthy (now : Q)
| Enable (now : Q)
| Disable
| Reset (t1 t2 : Q)
| GetStats (now now' : Q)
| SetTimeout (x : Q).

Definition step (op : Op) (s : t) : t :=
  match op with
  | Kick now => state_of (kick now s)
  | Heartbeat now now' => state_of (heartbeat now now' s)
  | Check now => state_of (check now s)
  | IsHealthy now => state_of (is_healthy now s)
  | Enable now => state_of (enable now s)
  | Disable => state_of (disable s)
  | Reset t1 t2 => state_of (reset t1 t2 s)
  | GetStats now now' => state_of (get_stats now now' s)
  | SetTimeout x => state_of (set_timeout x s)
  end.

Definition is_check (op : Op) : bool :=
  match op with
  | Check _ => true
  | _ => false
  end.

(** [kick()], alone or as the last statement of [heartbeat()]. *)
Definition is_kick (op : Op) : bool :=
  match op with
  | Kick _ | Heartbeat _ _ => true
  | _ => false
  end.

Definition is_reset (op : Op) : bool :=
  match op with
  | Reset _ _ => true
  | _ => false
  end.

(** Successive [check()] calls at the given clock readings. *)
Definition checks (times : list Q) (s : t) : t :=
  fold_left (fun acc now => state_of (check now acc)) times s.

Definition run (ops : list Op) (s : t) : t :=
  fold_left (fun acc op => step op acc) ops s.

(** How many times the timeout subscriber was invoked. *)
Definition timeout_calls (s : t) : nat :=
  List.length
    (filter (fun c => match c with OnTimeout _ => true | _ => false end)
            (calls s)).

Definition set_on_recovery (x : bool) (s : t) : t :=
  mk (timeout s) (enable_heartbeat s) (last_response s) (last_heartbeat s)
     (enabled s) (fault_detected s) (kick_count s) (timeout_count s)
     (heartbeat_count s) (on_timeout s) x (lock s) (calls s).

(** How many times the recovery subscriber was invoked. *)
Definition recovery_calls (s : t) : nat :=
  List.length
    (filter (fun c => match c with OnRecovery => true | _ => false end)
            (calls s)).

(** How far the float product [self.timeout * 1.5] of [check] can be from
    the exact one.  Rounding to the nearest float moves a product by at
    most [2^-53] of itself, or by [2^-1075] where the result is
    subnormal; the bound here is twice that. *)
Definition rounding_slack (timeout : Q) : Q :=
  (Qabs timeout * (3 # 2) * (1 # 2 ^ 52) + (1 # 2 ^ 1074))%Q.

(** What the counter and the calls have to do with each other, on a
    watchdog with a timeout subscriber. *)
Definition accounted (s : t) : Prop :=
  on_timeout s = true /\
  timeout_count s = Z.of_nat (timeout_calls s) /\
  (recovery_calls s + (if fault_detected s then 1 else 0)
   <= timeout_calls s)%nat.

End Watchdog.

(** ** esp32_comm.py *)

Module ESP32Communicator.

Record LogEntry : Type := mkLogEntry {
  timestamp : Q;
  command : string;
  sent : bool
}.

(** [serial_link] and [motion_queue.serial] are one object in the program.
    The record holds it twice and [put_queue] keeps the two in step. *)
Record t : Type := mk {
  is_connected : bool;
  serial_link : option ESP32Serial.t;
  motion_queue : option MotionQueue.t;
  watchdog : option Watchdog.t;
  command_log : list LogEntry;
  max_log_size : Z;
  enable_watchdog : bool;
  running : bool
}.

Definition set_is_connected (x : bool) (c : t) : t :=
  mk x (serial_link c) (motion_queue c) (watchdog c) (command_log c)
     (max_log_size c) (enable_watchdog c) (running c).

Definition set_serial_link (x : option ESP32Serial.t) (c : t) : t :=
  mk (is_connected c) x (motion_queue c) (watchdog c) (command_log c)
     (max_log_size c) (enable_watchdog c) (running c).

Definition set_motion_queue (x : option MotionQueue.t) (c : t) : t :=
  mk (is_connected c) (serial_link c) x (watchdog c) (command_log c)
     (max_log_size c) (enable_watchdog c) (running c).

Definition set_watchdog (x : option Watchdog.t) (c : t) : t :=
  mk (is_connected c) (serial_link c) (motion_queue c) x (command_log c)
     (max_log_size c) (enable_watchdog c) (running c).

Definition set_command_log (x : list LogEntry) (c : t) : t :=
  mk (is_connected c) (serial_link c) (motion_queue c) (watchdog c) x
     (max_log_size c) (enable_watchdog c) (running c).

Definition set_running (x : bool) (c : t) : t :=
  mk (is_connected c) (serial_link c) (motion_queue c) (watchdog c)
     (command_log c) (max_log_size c) (enable_watchdog c) x.

Definition put_queue (q : MotionQueue.t) (c : t) : t :=
  set_serial_link (Some (MotionQueue.serial q)) (set_motion_queue (Some q) c).

(** [ESP32Communicator.__init__] *)
Definition init (enable_watchdog : bool) : t :=
  mk false None None None [] 1000 enable_watchdog false.

(** A method of the queue [q], called through [self.motion_queue]. *)
Definition on_queue {A} (m : M MotionQueue.t A) (q : MotionQueue.t)
  : M t A :=
  fun c =>
    match m q with
    | Returns a q' => Returns a (put_queue q' c)
    | Raises e q' => Raises e (put_queue q' c)
    | Blocks q' => Blocks (put_queue q' c)
    end.

(** A method of the watchdog [w], called through [self.watchdog]. *)
Definition on_watchdog {A} (m : M Watchdog.t A) (w : Watchdog.t)
  : M t A :=
  fun c =>
    match m w with
    | Returns a w' => Returns a (set_watchdog (Some w') c)
    | Raises e w' => Raises e (set_watchdog (Some w') c)
    | Blocks w' => Blocks (set_watchdog (Some w') c)
    end.

(** [self.serial_link.send(command_string)], with no queue in between. *)
Definition link_send (tx : ESP32Serial.Transport) (command_string : string)
  : M t bool :=
  fun c =>
    match serial_link c with
    | Some l =>
        let (ok, l') := ESP32Serial.send tx command_string l in
        Returns ok (set_serial_link (Some l') c)
    | None => Raises AttributeError c
    end.

(** [ESP32Communicator._log_command] *)
Definition _log_command (now : Q) (command_string : string) (sent : bool)
  : M t unit :=
  modify (fun c =>
            set_command_log
              (command_log c ++ [mkLogEntry now command_string sent]) c) ;;
  c <- get ;;
  when (len (command_log c) >? max_log_size c)
       (modify (set_command_log
                  (last_n (max_log_size c) (command_log c)))).

(** [ESP32Communicator.connect]: [port] says whether a port was given or
    found, [opened] whether [ESP32Serial.connect] opened it, [t1] and
    [t2] are the clock readings of [Watchdog.__init__]. *)
Definition connect (port opened : bool) (t1 t2 : Q) : M t bool :=
  c <- get ;;
  if is_connected c then ret true
  else if negb port then ret false
  else
    let (ok, link) := ESP32Serial.connect opened ESP32Serial.init in
    modify (set_serial_link (Some link)) ;;
    if negb ok then ret false
    else
    let link := ESP32Serial.set_on_message true link in
    let q := MotionQueue.init link 100 in
    modify (put_queue q) ;;
    when (enable_watchdog c)
         (modify (set_watchdog
                    (Some (Watchdog.set_on_timeout true
                             (Watchdog.init 2 false t1 t2))))) ;;
    modify (set_running true) ;;
    modify (set_is_connected true) ;;
    ret true.

(** [ESP32Communicator.send_command] *)
Definition send_command (now : Q) (tx : ESP32Serial.Transport)
    (command_string : string) (priority : bool) : M t bool :=
  c <- get ;;
  if negb (is_connected c) then
    _log_command now command_string false ;;
    ret false
  else if priority then
    match motion_queue c with
    | Some q => on_queue (MotionQueue.emergency_stop tx) q
    | None => link_send tx command_string ;; ret tt
    end ;;
    _log_command now command_string true ;;
    ret true
  else
    match motion_queue c with
    | Some q =>
        success <- on_queue (MotionQueue.add command_string) q ;;
        when success (_log_command now command_string false) ;;
        ret success
    | None => link_send tx command_string
    end.

(** [ESP32Communicator.emergency_stop] *)
Definition emergency_stop (now : Q) (tx : ESP32Serial.Transport)
  : M t unit :=
  c <- get ;;
  match motion_queue c with
  | Some q => on_queue (MotionQueue.emergency_stop tx) q
  | None => send_command now tx "$STOP$" true ;; ret tt
  end.

Definition try_except {S A} (m : M S A) (handler : Exn -> M S A) : M S A :=
  fun s =>
    match m s with
    | Raises e s' => handler e s'
    | o => o
    end.

(** One turn of the loop of [ESP32Communicator._update_worker]: [now] and
    [tx] serve [update], [now'] serves [check], [tx'] the stop. *)
Definition _update_worker (now now' : Q) (tx tx' : ESP32Serial.Transport)
  : M t unit :=
  try_except (
    c <- get ;;
    match motion_queue c with
    | Some q => on_queue (MotionQueue.update now tx) q
    | None => ret tt
    end ;;
    c <- get ;;
    match watchdog c with
    | Some w =>
        when (Watchdog.enabled w) (
          try_except (on_watchdog (Watchdog.check now') w)
            (fun e =>
               match e with
               | WatchdogTimeout _ =>
                   c <- get ;;
                   match motion_queue c with
                   | Some q => on_queue (MotionQueue.emergency_stop tx') q
                   | None => ret tt
                   end
               | _ => raise e
               end))
    | None => ret tt
    end)
    (fun _ => ret tt).

(** [ESP32Communicator.get_command_log] *)
Definition get_command_log (count : Z) (c : t) : list LogEntry :=
  last_n count (command_log c).

(** [ESP32Communicator.get_queue_stats] *)
Definition get_queue_stats (c : t) : option MotionQueue.Stats :=
  option_map MotionQueue.get_stats (motion_queue c).

(** An assignment to a field of the link, seen through [self.serial_link]
    and through the queue's [self.serial]. *)
Definition put_link (l : ESP32Serial.t) (c : t) : t :=
  set_serial_link (Some l)
    (match motion_queue c with
     | Some q => set_motion_queue (Some (MotionQueue.set_serial l q)) c
     | None => c
     end).

(** [ESP32Communicator.disconnect] *)
Definition disconnect : M t unit :=
  c <- get ;;
  if negb (is_connected c) then ret tt
  else
    modify (set_running false) ;;
    match motion_queue c with
    | Some q => on_queue MotionQueue.clear q
    | None => ret tt
    end ;;
    c <- get ;;
    match watchdog c with
    | Some w => on_watchdog Watchdog.disable w
    | None => ret tt
    end ;;
    c <- get ;;
    match serial_link c with
    | Some l => modify (put_link (ESP32Serial.disconnect l))
    | None => ret tt
    end ;;
    modify (set_is_connected false).

(** [ESP32Communicator.clear_command_log] *)
Definition clear_command_log (c : t) : t := set_command_log [] c.

(** [ESP32Communicator.is_ready] *)
Definition is_ready (c : t) : bool :=
  if negb (is_connected c) then false
  else
    match motion_queue c with
    | Some q => MotionQueue.get_queue_size q <? 50
    | None => true
    end.

End ESP32Communicator.

(** ** The subscribers on the link

    [ESP32Communicator.connect] and [MotionQueue._setup_callbacks] install
    four functions on the link: [_handle_esp32_message], wrapped in
    [msg_handler_with_watchdog] when the watchdog is enabled, as
    [on_message]; [MotionQueue.on_done] as [on_done_move]; and
    [fault_handler] as [on_fault].  [receive] is
    [ESP32Serial._handle_message] with these in place. *)

Module Wiring.

Record t : Type := mk {
  communicator : ESP32Communicator.t;
  response_queue : list string;       (* the legacy queue, oldest first *)
  on_response_callback : bool;
  responses : list string             (* calls of the response subscriber *)
}.

Definition set_communicator (x : ESP32Communicator.t) (s : t) : t :=
  mk x (response_queue s) (on_response_callback s) (responses s).

Definition set_response_queue (x : list string) (s : t) : t :=
  mk (communicator s) x (on_response_callback s) (responses s).

Definition set_responses (x : list string) (s : t) : t :=
  mk (communicator s) (response_queue s) (on_response_callback s) x.

(** A communicator as [ESP32Communicator.__init__] leaves its response
    queue and subscriber. *)
Definition init (c : ESP32Communicator.t) : t := mk c [] false [].

(** A method of the communicator, run on the communicator inside. *)
Definition on_communicator {A} (m : M ESP32Communicator.t A) : M t A :=
  fun s =>
    match m (communicator s) with
    | Returns a c => Returns a (set_communicator c s)
    | Raises e c => Raises e (set_communicator c s)
    | Blocks c => Blocks (set_communicator c s)
    end.

(** [try: f() except Exception as e: print(...)] *)
Definition guarded {S} (m : M S unit) : M S unit :=
  ESP32Communicator.try_except m (fun _ => ret tt).

(** The clock readings of one [_handle_message]: its own, the one in
    [kick], the one in [heartbeat] and the one in the [kick] inside
    [heartbeat]. *)
Record Clock : Type := mkClock {
  at_message : Q;
  at_kick : Q;
  at_heartbeat : Q;
  at_heartbeat_kick : Q
}.

(** [ESP32Communicator._handle_esp32_message] *)
Definition _handle_esp32_message (msg : string) : M t unit :=
  modify (fun s => set_response_queue (response_queue s ++ [msg]) s) ;;
  s <- get ;;
  when (on_response_callback s)
       (modify (fun s' => set_responses (responses s' ++ [msg]) s')).

(** [self.watchdog.f()] *)
Definition on_self_watchdog (m : M Watchdog.t unit) : M t unit :=
  s <- get ;;
  match ESP32Communicator.watchdog (communicator s) with
  | Some w => on_communicator (ESP32Communicator.on_watchdog m w)
  | None => raise AttributeError
  end.

(** [msg_handler_with_watchdog], the closure of [connect] *)
Definition msg_handler_with_watchdog (clock : Clock) (msg : string)
  : M t unit :=
  on_self_watchdog (Watchdog.kick (at_kick clock)) ;;
  when (String.eqb msg "HB")
       (on_self_watchdog
          (Watchdog.heartbeat (at_heartbeat clock)
             (at_heartbeat_kick clock))) ;;
  _handle_esp32_message msg.

(** [self.motion_queue.f()], from a closure of the queue *)
Definition on_self_queue (m : M MotionQueue.t unit) : M t unit :=
  s <- get ;;
  match ESP32Communicator.motion_queue (communicator s) with
  | Some q => on_communicator (ESP32Communicator.on_queue m q)
  | None => ret tt
  end.

(** What a call of a subscriber does.  [fault_handler] clears the queue;
    the handler it found on the link when the queue was made is [None]
    on a link made by [connect].  The other subscribers are the
    caller's. *)
Definition subscriber (clock : Clock) (call : ESP32Serial.Call) : M t unit :=
  match call with
  | ESP32Serial.OnMessage msg =>
      s <- get ;;
      if ESP32Communicator.enable_watchdog (communicator s)
      then msg_handler_with_watchdog clock msg
      else _handle_esp32_message msg
  | ESP32Serial.OnDoneMove => on_self_queue MotionQueue.on_done
  | ESP32Serial.OnFault _ => on_self_queue MotionQueue.clear
  | ESP32Serial.OnAckMove
  | ESP32Serial.OnAckStop
  | ESP32Serial.OnHeartbeat => ret tt
  end.

Fixpoint dispatch (clock : Clock) (calls : list ESP32Serial.Call)
  : M t unit :=
  match calls with
  | [] => ret tt
  | call :: rest => guarded (subscriber clock call) ;; dispatch clock rest
  end.

(** [ESP32Serial._handle_message(msg)] on the link of the communicator. *)
Definition receive (clock : Clock) (msg : string) : M t unit :=
  s <- get ;;
  match ESP32Communicator.serial_link (communicator s) with
  | Some l =>
      let (l', calls) := ESP32Serial._handle_message (at_message clock) msg l in
      modify (fun s' =>
                set_communicator
                  (ESP32Communicator.put_link l' (communicator s')) s') ;;
      dispatch clock calls
  | None => ret tt
  end.

End Wiring.

(** ** Scenarios

    The states the examples below run on. *)

Module Scenario.

Definition move (angle : string) : string :=
  ("$MOVE" ++ newline ++ "J1:" ++ angle ++ newline ++ "$")%string.

(** A link whose port has been opened. *)
Definition link : ESP32Serial.t :=
  Eval vm_compute in snd (ESP32Serial.connect true ESP32Serial.init).

(** [MotionQueue(serial, max_size=10)] *)
Definition idle : MotionQueue.t :=
  Eval vm_compute in MotionQueue.init link 10.

(** Test 4 of motion_queue.py: two moves queued, nothing in flight. *)
Definition two_queued : MotionQueue.t :=
  Eval vm_compute in
    MotionQueue.run
      [MotionQueue.Add (move "90"); MotionQueue.Add (move "180")] idle.

(** [max_size=2] and two commands queued: the queue is full. *)
Definition full : MotionQueue.t :=
  Eval vm_compute in
    MotionQueue.run
      [MotionQueue.Add (move "90"); MotionQueue.Add (move "180")]
      (MotionQueue.init link 2).

(** [Watchdog(timeout=1.0, enable_heartbeat=True)] created at time 0,
    with a timeout subscriber. *)
Definition watched : Watchdog.t :=
  Watchdog.set_on_timeout true (Watchdog.init 1 true 0 0).

(** The same watchdog after the [check()] at time 8/5 has raised. *)
Definition faulted : Watchdog.t :=
  state_of (Watchdog.check (8 # 5) watched).

(** A connected communicator with four moves queued. *)
Definition connected : ESP32Communicator.t :=
  Eval vm_compute in
    state_of (ESP32Communicator.connect true true 0 0
                (ESP32Communicator.init true)).

Definition queue_move (angle : string) (c : ESP32Communicator.t)
  : ESP32Communicator.t :=
  state_of (ESP32Communicator.send_command 1 ESP32Serial.TxOk
              (move angle) false c).

Definition four_queued : ESP32Communicator.t :=
  Eval vm_compute in
    queue_move "40" (queue_move "30" (queue_move "20"
      (queue_move "10" connected))).

(** The same communicator after one turn of the control loop: the first
    move is in flight, three are queued. *)
Definition in_flight : ESP32Communicator.t :=
  Eval vm_compute in
    state_of (ESP32Communicator._update_worker 1 1 ESP32Serial.TxOk
                ESP32Serial.TxOk four_queued).

(** The communicator with its response queue, before and after that
    turn. *)
Definition wired : Wiring.t := Eval vm_compute in Wiring.init four_queued.

Definition wired_in_flight : Wiring.t :=
  Eval vm_compute in Wiring.init in_flight.

Definition clock : Wiring.Clock := Wiring.mkClock 2 2 2 2.

End Scenario.

(** * Properties *)

(** Unfolds the monadic plumbing of a method applied to a state. *)
Ltac run_method :=
  cbv beta delta
    [with_lock bind ret get modify when raise state_of returned
     lock_held set_lock MotionQueue.lockable Watchdog.lockable
     MotionQueue.statements MotionQueue.serial_send
     Watchdog.invoke Watchdog.fault] in *;
  cbn in *.

(** Unfolds a subscriber call down to the methods it calls. *)
Ltac run_subscriber :=
  cbv beta delta
    [Wiring.receive Wiring.dispatch Wiring.subscriber Wiring.guarded
     Wiring.msg_handler_with_watchdog Wiring._handle_esp32_message
     Wiring.on_self_watchdog Wiring.on_self_queue Wiring.on_communicator
     ESP32Communicator.try_except ESP32Communicator.on_watchdog
     ESP32Communicator.on_queue
     with_lock bind ret get modify when raise state_of returned
     lock_held set_lock MotionQueue.lockable Watchdog.lockable
     Watchdog.invoke];
  cbn.

(** ** Python helpers *)

Lemma len_app {A} (l : list A) (x : A) : len (l ++ [x]) = len l + 1.
Proof. unfold len. rewrite length_app. simpl. lia. Qed.

Lemma Qgtb_true (x y : Q) : Qgtb x y = true <-> (y < x)%Q.
Proof.
  unfold Qgtb. rewrite negb_true_iff. split; intro H.
  - apply Qnot_le_lt. intro Hle. apply Qle_bool_iff in Hle. congruence.
  - destruct (Qle_bool x y) eqn:E; [|reflexivity].
    apply Qle_bool_iff in E. exfalso. exact (Qlt_not_le _ _ H E).
Qed.

(** Once the separator is in the string, [split(c, 1)] has two parts. *)
Lemma split1_contains (c : ascii) (s : string) :
  contains c s = true ->
  exists before after, split1 c s = [before; after].
Proof.
  induction s as [|a rest IH]; simpl; [discriminate|].
  destruct (Ascii.eqb a c); intro H.
  - eauto.
  - destruct (IH H) as (b & r & ->). eauto.
Qed.

(** [startswith] holds of the strings that begin with the prefix. *)
Lemma startswith_app (s p : string) :
  startswith s p = true <-> exists rest, s = (p ++ rest)%string.
Proof.
  revert s. induction p as [|b p IH]; intro s; cbn.
  - split; [eauto | reflexivity].
  - destruct s as [|a s]; [split; [discriminate | intros [r [=]]]|].
    rewrite andb_true_iff, Ascii.eqb_eq, IH. split.
    + intros [-> [r ->]]. eauto.
    + intros [r [= -> ->]]. eauto.
Qed.

(** ** The motion queue *)

Section MotionQueueFacts.

Import MotionQueue.

Lemma set_lock_free (s : t) :
  lock s = false -> set_lock_field false s = s.
Proof. destruct s; simpl; intros ->; reflexivity. Qed.

Lemma set_lock_taken (s : t) :
  lock s = true -> set_lock_field true s = s.
Proof. destruct s; simpl; intros ->; reflexivity. Qed.

(** The lock is not re-entrant: [emergency_stop] takes it and then waits
    for it inside [clear], before it has touched the queue or the link. *)
Lemma emergency_stop_blocks (tx : ESP32Serial.Transport) (s : t) :
  emergency_stop tx s = Blocks (set_lock_field true s).
Proof.
  unfold emergency_stop, clear. run_method.
  destruct (lock s) eqn:E; [rewrite set_lock_taken by exact E|]; reflexivity.
Qed.

Lemma step_preserves (op : Op) (s : t) :
  busy_iff_current s -> busy_iff_current (step op s).
Proof.
  unfold busy_iff_current.
  destruct op as [command|now tx| | |tx]; unfold step.
  - unfold add. destruct s as [l q m b c st n1 n2 n3 [|]]; run_method;
      [tauto|]. destruct (_ >=? _); cbn; tauto.
  - unfold update. destruct s as [l q m b c st n1 n2 n3 [|]]; run_method;
      [tauto|].
    destruct b; [cbn; tauto|].
    destruct q as [|command rest]; [cbn; tauto|]. cbn.
    destruct (ESP32Serial.send tx command l) as [[|] link]; cbn; [|tauto].
    intros _. split; [reflexivity | discriminate].
  - unfold on_done. destruct s as [l q m b c st n1 n2 n3 [|]]; run_method;
      [tauto|].
    destruct b; cbn; [|tauto].
    intros _. split; [congruence | discriminate].
  - unfold clear. destruct s as [l q m b c st n1 n2 n3 [|]]; run_method;
      tauto.
  - rewrite emergency_stop_blocks. destruct s; cbn. tauto.
Qed.

End MotionQueueFacts.

Section MotionQueueClaims.

Import MotionQueue.

(** C1. The invariant [current_command != None] iff [busy == True] holds
    for a new queue, is preserved by each of add, update, on_done, clear
    and emergency_stop, and so holds after every sequence of them. *)
Theorem busy_iff_current_invariant
    (serial_link : ESP32Serial.t) (max_size : Z) (ops : list Op) :
  busy_iff_current (init serial_link max_size) /\
  (forall (op : Op) (s : t),
      busy_iff_current s -> busy_iff_current (step op s)) /\
  busy_iff_current (run ops (init serial_link max_size)).
Proof.
  assert (Hinit : busy_iff_current (init serial_link max_size)).
  { unfold busy_iff_current; cbn. split; [congruence | discriminate]. }
  split; [exact Hinit|]. split; [exact step_preserves|].
  unfold run. generalize dependent (init serial_link max_size).
  induction ops as [|op ops IH]; intros s Hs; cbn; [exact Hs|].
  apply IH. apply step_preserves. exact Hs.
Qed.

(** C2, as the code has it.  [emergency_stop()] never returns: it waits in
    [clear()] for the lock it holds itself.  The queue is not emptied,
    [busy] and [current_command] are not reset, and nothing is written to
    the link.  With two moves queued (test 4 of motion_queue.py) the two
    moves are still queued. *)
Theorem emergency_stop_waits_for_its_own_lock
    (tx : ESP32Serial.Transport) (s : t) :
  let o := emergency_stop tx s in
  o = Blocks (set_lock_field true s) /\
  returned o = None /\
  queue (state_of o) = queue s /\
  busy (state_of o) = busy s /\
  current_command (state_of o) = current_command s /\
  ESP32Serial.wire (serial (state_of o)) = ESP32Serial.wire (serial s) /\
  get_queue_size
    (state_of (emergency_stop ESP32Serial.TxOk Scenario.two_queued)) = 2.
Proof.
  cbv zeta. rewrite !emergency_stop_blocks. destruct s; cbn.
  repeat split; reflexivity.
Qed.

(** C4. With the lock free: when the length has reached [max_size], [add]
    returns [False], [commands_dropped] is one more than it was, and the
    queue, [busy], [current_command] and every other field are what they
    were; below [max_size] it returns [True], the queue is the old one
    with the command after it, so the length has grown by one, and
    nothing else has changed, [commands_dropped] included. *)
Theorem add_bounded (command : string) (s : t) (Hfree : lock s = false) :
  let s' := state_of (add command s) in
  (len (queue s) >= max_size s ->
   add command s =
     Returns false (set_commands_dropped (commands_dropped s + 1) s) /\
   returned (add command s) = Some false /\
   commands_dropped s' = commands_dropped s + 1 /\
   queue s' = queue s /\
   busy s' = busy s /\
   current_command s' = current_command s) /\
  (len (queue s) < max_size s ->
   add command s = Returns true (set_queue (queue s ++ [command]) s) /\
   returned (add command s) = Some true /\
   queue s' = queue s ++ [command] /\
   len (queue s') = len (queue s) + 1 /\
   commands_dropped s' = commands_dropped s /\
   busy s' = busy s /\
   current_command s' = current_command s) /\
  serial s' = serial s /\
  max_size s' = max_size s /\
  command_start_time s' = command_start_time s /\
  commands_sent s' = commands_sent s /\
  commands_completed s' = commands_completed s /\
  lock s' = false.
Proof.
  cbv zeta. unfold add. destruct s as [l q m b c st n1 n2 n3 lk].
  cbn in Hfree. subst lk. run_method.
  destruct (Z.geb_spec (len q) m) as [Hge|Hlt]; cbn.
  - split; [intros _; repeat split; reflexivity|].
    split; [intro H; lia|]. repeat split; reflexivity.
  - split; [intro H; lia|].
    split; [|repeat split; reflexivity].
    intros _. rewrite len_app. repeat split; reflexivity.
Qed.

Lemma add_bounded_witness :
  returned (add (Scenario.move "270") Scenario.full) = Some false /\
  commands_dropped (state_of (add (Scenario.move "270") Scenario.full))
    = commands_dropped Scenario.full + 1 /\
  queue (state_of (add (Scenario.move "270") Scenario.full))
    = queue Scenario.full /\
  returned (add (Scenario.move "270") Scenario.two_queued) = Some true /\
  queue (state_of (add (Scenario.move "270") Scenario.two_queued))
    = queue Scenario.two_queued ++ [Scenario.move "270"].
Proof.
  pose proof (add_bounded (Scenario.move "270") Scenario.full eq_refl)
    as Hfull.
  pose proof (add_bounded (Scenario.move "270") Scenario.two_queued eq_refl)
    as Hroom.
  cbv zeta in Hfull, Hroom.
  destruct Hfull as (Hfull & _). destruct Hroom as (_ & Hroom & _).
  destruct Hfull as (_ & Hr & Hd & Hq & _); [vm_compute; discriminate|].
  destruct Hroom as (_ & Hr' & Hq' & _); [vm_compute; reflexivity|].
  repeat split; assumption.
Defined.

(** C5. With the lock free, [update] changes nothing when the queue is
    busy or empty.  Otherwise it takes the head and hands it to the link's
    [send]: when that returns [True] the queue is the tail, [busy] is set,
    the command is the current one, the start time is the clock reading
    and [commands_sent] has grown by one; when it returns [False] the
    command is back at the head, so the queue is what it was, and [busy]
    is still [False]. *)
Theorem update_sends_head (now : Q) (tx : ESP32Serial.Transport) (s : t)
    (Hfree : lock s = false) :
  (busy s = true \/ queue s = [] -> update now tx s = Returns tt s) /\
  (forall command rest link,
      busy s = false -> queue s = command :: rest ->
      ESP32Serial.send tx command (serial s) = (true, link) ->
      update now tx s =
        Returns tt
          (mk link rest (max_size s) true (Some command) now
              (commands_sent s + 1) (commands_completed s)
              (commands_dropped s) false)) /\
  (forall command rest link,
      busy s = false -> queue s = command :: rest ->
      ESP32Serial.send tx command (serial s) = (false, link) ->
      update now tx s = Returns tt (set_serial link s) /\
      queue (state_of (update now tx s)) = queue s /\
      busy (state_of (update now tx s)) = false).
Proof.
  unfold update. destruct s as [l q m b c st n1 n2 n3 lk]; cbn in Hfree.
  subst lk. run_method. split; [|split].
  - intros [-> | ->]; [reflexivity|]. destruct b; reflexivity.
  - intros command rest link -> -> Hsend. cbn. rewrite Hsend. reflexivity.
  - intros command rest link -> -> Hsend. cbn. rewrite Hsend.
    repeat split; reflexivity.
Qed.

Lemma update_sends_head_witness :
  update 3 ESP32Serial.TxOk Scenario.idle = Returns tt Scenario.idle /\
  busy (state_of (update 3 ESP32Serial.TxOk Scenario.two_queued)) = true /\
  queue (state_of (update 3 ESP32Serial.TxWriteRaises Scenario.two_queued))
    = queue Scenario.two_queued.
Proof.
  split; [|split].
  - apply (proj1 (update_sends_head 3 ESP32Serial.TxOk Scenario.idle
                    eq_refl)).
    right. reflexivity.
  - destruct (update_sends_head 3 ESP32Serial.TxOk Scenario.two_queued
                eq_refl) as (_ & Hsent & _).
    rewrite (Hsent _ _ _ eq_refl eq_refl eq_refl). reflexivity.
  - destruct (update_sends_head 3 ESP32Serial.TxWriteRaises
                Scenario.two_queued eq_refl) as (_ & _ & Hfailed).
    apply (Hfailed _ _ _ eq_refl eq_refl eq_refl).
Defined.

(** Cutting [update] after its last assignment and releasing the lock is
    [update]. *)
Lemma update_midway_complete (now : Q) (tx : ESP32Serial.Transport)
    (s mid : t) :
  update_midway 4 now tx s = Some mid ->
  update now tx s = Returns tt (set_lock_field false mid).
Proof.
  unfold update_midway, update.
  destruct s as [l q m b c st n1 n2 n3 [|]]; run_method; [discriminate|].
  destruct b; [discriminate|]. destruct q as [|command rest];
    [discriminate|]. cbn.
  destruct (ESP32Serial.send tx command l) as [[|] link]; cbn;
    [|discriminate].
  intros [= <-]. reflexivity.
Qed.

End MotionQueueClaims.

(** ** The watchdog *)

Section WatchdogFacts.

Import Watchdog.

(** [heartbeat] takes the lock and then waits for it inside [kick]. *)
Lemma heartbeat_blocks (now now' : Q) (s : t) :
  lock s = false ->
  heartbeat now now' s =
    Blocks (set_heartbeat_count (heartbeat_count s + 1)
              (set_last_heartbeat now (set_lock_field true s))).
Proof.
  unfold heartbeat, kick.
  destruct s as [tm hb lr lh en fd k tc hc ot orc lk cs]; cbn.
  intros ->. run_method. reflexivity.
Qed.

(** [get_stats] takes the lock and then waits for it inside
    [is_healthy]. *)
Lemma get_stats_blocks (now now' : Q) (s : t) :
  get_stats now now' s = Blocks (set_lock_field true s).
Proof.
  unfold get_stats, is_healthy.
  destruct s as [tm hb lr lh en fd k tc hc ot orc [|] cs]; run_method;
    reflexivity.
Qed.

(** While the fault flag is set, [check] leaves the watchdog as it is. *)
Lemma check_while_faulted (now : Q) (s : t) :
  fault_detected s = true -> state_of (check now s) = s.
Proof.
  unfold check.
  destruct s as [tm hb lr lh en fd k tc hc ot orc lk cs]; cbn.
  intros ->. destruct en; [|reflexivity]. run_method.
  destruct lk; [reflexivity|]. cbn.
  destruct (Qgtb (now - lr) tm); cbn;
    destruct hb; cbn; try reflexivity;
    destruct (Qgtb (now - lh) (tm * (3 # 2))); reflexivity.
Qed.

Lemma checks_while_faulted (times : list Q) (s : t) :
  fault_detected s = true -> checks times s = s.
Proof.
  unfold checks. induction times as [|now times IH]; intro H; cbn;
    [reflexivity|].
  rewrite (check_while_faulted now s H). apply IH, H.
Qed.

(** While the fault flag is set, an operation that is neither a kick nor
    a reset keeps the flag, the timeout counter and the subscriber
    calls. *)
Lemma step_while_faulted (op : Op) (s : t) :
  is_kick op = false -> is_reset op = false ->
  fault_detected s = true ->
  fault_detected (step op s) = true /\
  timeout_count (step op s) = timeout_count s /\
  calls (step op s) = calls s.
Proof.
  intros Hkick Hreset Hset.
  destruct op; try discriminate Hkick; try discriminate Hreset;
    unfold step;
    try (rewrite get_stats_blocks; destruct s; cbn in *; auto);
    try (rewrite check_while_faulted by exact Hset; auto);
    unfold is_healthy, enable, disable, set_timeout;
    destruct s as [tm hb lr lh en fd k tc hc ot orc [|] cs];
    cbn in Hset; subst fd; run_method; auto.
Qed.

Lemma run_while_faulted (ops : list Op) (s : t) :
  forallb (fun op => negb (is_kick op) && negb (is_reset op)) ops = true ->
  fault_detected s = true ->
  fault_detected (run ops s) = true /\
  timeout_count (run ops s) = timeout_count s /\
  calls (run ops s) = calls s.
Proof.
  unfold run. revert s.
  induction ops as [|op ops IH]; intros s Hops Hset; cbn; [auto|].
  cbn in Hops. apply andb_true_iff in Hops as [Hop Hops].
  apply andb_true_iff in Hop as [Hkick Hreset].
  apply negb_true_iff in Hkick, Hreset.
  destruct (step_while_faulted op s Hkick Hreset Hset) as (Hf & Hc & Hk).
  destruct (IH (step op s) Hops Hf) as (Hf' & Hc' & Hk').
  rewrite Hf', Hc', Hk'. auto.
Qed.

(** One [check] counts at most one timeout and invokes the timeout
    subscriber at most once. *)
Lemma check_at_most_one (now : Q) (s : t) :
  let s' := state_of (check now s) in
  (timeout_count s' = timeout_count s /\ calls s' = calls s) \/
  (timeout_count s' = timeout_count s + 1 /\
   fault_detected s = false /\ fault_detected s' = true /\
   exists elapsed,
     calls s' = calls s ++ (if on_timeout s then [OnTimeout elapsed] else [])).
Proof.
  unfold check.
  destruct s as [tm hb lr lh en fd k tc hc ot orc lk cs]; cbn.
  destruct en; [|left; split; reflexivity]. run_method.
  destruct lk; [left; split; reflexivity|]. cbn.
  destruct (Qgtb (now - lr) tm); cbn.
  - destruct fd; cbn.
    + destruct hb; cbn; [|left; split; reflexivity].
      destruct (Qgtb (now - lh) (tm * (3 # 2))); left; split; reflexivity.
    + right. destruct ot; cbn; do 3 (split; [reflexivity|]);
        exists (now - lr)%Q; [reflexivity | now rewrite app_nil_r].
  - destruct hb; cbn; [|left; split; reflexivity].
    destruct (Qgtb (now - lh) (tm * (3 # 2))); cbn;
      [|left; split; reflexivity].
    destruct fd; cbn; [left; split; reflexivity|].
    right. destruct ot; cbn; do 3 (split; [reflexivity|]);
      exists (now - lh)%Q; [reflexivity | now rewrite app_nil_r].
Qed.

End WatchdogFacts.

Section WatchdogClaims.

Import Watchdog.

(** C3, as stated, fails: [reset()] is neither [kick()] nor [heartbeat()]
    and clears the fault that the check at time 8/5 detected. *)
Lemma reset_clears_fault :
  is_kick (Reset 2 2) = false /\
  fault_detected Scenario.faulted = true /\
  fault_detected (step (Reset 2 2) Scenario.faulted) = false.
Proof. repeat split; reflexivity. Qed.

(** C3, amended.  [fault_detected] becomes true only inside [check()]:
    every other operation leaves a clear flag clear.  Once true it is
    cleared only by [kick()] or [reset()]: every operation other than
    kick (as such or as the last statement of heartbeat) and reset leaves
    a set flag set. *)
Theorem fault_flag_transitions (op : Op) (s : t) :
  (is_check op = false ->
   fault_detected s = false -> fault_detected (step op s) = false) /\
  (is_kick op = false -> is_reset op = false ->
   fault_detected s = true -> fault_detected (step op s) = true).
Proof.
  split.
  - intros Hop Hclear.
    destruct op; try discriminate Hop; unfold step;
      try (rewrite get_stats_blocks; destruct s; exact Hclear);
      unfold kick, heartbeat, is_healthy, enable, disable, reset,
        set_timeout;
      destruct s as [tm hb lr lh en fd k tc hc ot orc [|] cs];
      cbn in Hclear; subst fd; run_method; reflexivity.
  - intros Hkick Hreset Hset.
    destruct op; try discriminate Hkick; try discriminate Hreset;
      unfold step;
      try (rewrite get_stats_blocks; destruct s; exact Hset);
      try (rewrite check_while_faulted by exact Hset; exact Hset);
      unfold is_healthy, enable, disable, set_timeout;
      destruct s as [tm hb lr lh en fd k tc hc ot orc [|] cs];
      cbn in Hset; subst fd; run_method; reflexivity.
Qed.

Lemma fault_flag_transitions_witness :
  fault_detected (step (Kick 1) Scenario.watched) = false /\
  fault_detected (step (Check 2) Scenario.faulted) = true /\
  fault_detected (step Disable Scenario.faulted) = true.
Proof.
  split; [|split].
  - apply (proj1 (fault_flag_transitions (Kick 1) Scenario.watched));
      reflexivity.
  - apply (proj2 (fault_flag_transitions (Check 2) Scenario.faulted));
      reflexivity.
  - apply (proj2 (fault_flag_transitions Disable Scenario.faulted));
      reflexivity.
Defined.

(** C6.  Take an enabled watchdog with a timeout subscriber, its lock
    free and no fault flagged, at a clock reading that breaches both the
    response timeout and the heartbeat timeout ([timeout * 1.5]).  Then
    [check()] raises once, for the response timeout: the flag goes from
    false to true, [timeout_count] grows by one and the subscriber is
    invoked once, with the time since the last response.  Whatever
    [check()] calls follow, the watchdog stays as that first one left it,
    so the subscriber is not invoked and the counter not incremented
    again; the same holds when the checks are mixed with other
    operations, as long as none is a kick or a reset.  And no [check()],
    in any state, counts or reports more than one timeout. *)
Theorem check_fires_once (now : Q) (s : t)
    (Henabled : enabled s = true)
    (Hfree : lock s = false)
    (Hhealthy : fault_detected s = false)
    (Hsubscribed : on_timeout s = true)
    (Hheartbeat : enable_heartbeat s = true)
    (Hresponse : (timeout s < now - last_response s)%Q)
    (Hbeat : (timeout s * (3 # 2) < now - last_heartbeat s)%Q) :
  let s1 := state_of (check now s) in
  check now s = Raises (WatchdogTimeout (now - last_response s)) s1 /\
  fault_detected s1 = true /\
  timeout_count s1 = timeout_count s + 1 /\
  calls s1 = calls s ++ [OnTimeout (now - last_response s)] /\
  timeout_calls s1 = S (timeout_calls s) /\
  (forall later : list Q,
      checks later s1 = s1 /\
      timeout_calls (checks later s1) = timeout_calls s1 /\
      timeout_count (checks later s1) = timeout_count s1) /\
  (forall later : list Op,
      forallb (fun op => negb (is_kick op) && negb (is_reset op)) later
        = true ->
      timeout_calls (run later s1) = timeout_calls s1 /\
      timeout_count (run later s1) = timeout_count s1) /\
  (forall (t' : Q) (w : t),
      timeout_count (state_of (check t' w)) <= timeout_count w + 1 /\
      (timeout_calls (state_of (check t' w)) <= timeout_calls w + 1)%nat).
Proof.
  cbv zeta.
  assert (Hfired : check now s =
            Raises (WatchdogTimeout (now - last_response s))
              (set_calls (calls s ++ [OnTimeout (now - last_response s)])
                 (set_timeout_count (timeout_count s + 1)
                    (set_fault_detected true s)))).
  { apply Qgtb_true in Hresponse. unfold check.
    destruct s as [tm hb lr lh en fd k tc hc ot orc lk cs]; cbn in *.
    subst en lk fd ot hb. run_method. rewrite Hresponse. reflexivity. }
  rewrite Hfired. cbn [state_of].
  assert (Hset : fault_detected
                   (set_calls
                      (calls s ++ [OnTimeout (now - last_response s)])
                      (set_timeout_count (timeout_count s + 1)
                         (set_fault_detected true s))) = true)
    by (destruct s; reflexivity).
  split; [reflexivity|]. split; [exact Hset|].
  split; [destruct s; reflexivity|]. split; [destruct s; reflexivity|].
  split.
  { unfold timeout_calls. destruct s; cbn.
    rewrite filter_app, length_app. cbn. lia. }
  split.
  - intro later. rewrite checks_while_faulted by exact Hset.
    repeat split; reflexivity.
  - split.
    { intros later Hlater.
      destruct (run_while_faulted later _ Hlater Hset) as (_ & Hc & Hk).
      unfold timeout_calls. rewrite Hc, Hk. split; reflexivity. }
    intros t' w. pose proof (check_at_most_one t' w) as H. cbv zeta in H.
    unfold timeout_calls.
    destruct H as [[-> ->] | (-> & _ & _ & elapsed & ->)]; [lia|].
    split; [lia|]. rewrite filter_app, length_app.
    destruct (on_timeout w); cbn; lia.
Qed.

Lemma check_fires_once_witness :
  check (8 # 5) Scenario.watched =
    Raises (WatchdogTimeout ((8 # 5) - 0)) Scenario.faulted /\
  timeout_calls Scenario.faulted = 1%nat /\
  timeout_calls (checks [2; 3; 4]%Q Scenario.faulted) = 1%nat.
Proof.
  pose proof (check_fires_once (8 # 5) Scenario.watched
                eq_refl eq_refl eq_refl eq_refl eq_refl eq_refl eq_refl)
    as H.
  cbv zeta in H.
  destruct H as (Hraise & _ & _ & _ & Hcalls & Hlater & _ & _).
  split; [exact Hraise|]. split; [exact Hcalls|].
  destruct (Hlater [2; 3; 4]%Q) as (_ & Hsame & _).
  unfold Scenario.faulted. rewrite Hsame. exact Hcalls.
Defined.

End WatchdogClaims.

(** ** Reads and the locks *)

Section StatsReads.

(** C9, as the code has it.  [MotionQueue.get_stats] does not take the
    queue's lock.  Stop [update()] on two queued moves after its first
    assignment, [self.busy = True]: the lock is held, [add] and the poll
    of [wait_until_empty] wait for it, and [get_stats] answers with
    [busy] true and [current] None, a pair no state between two
    operations has.  [Watchdog.get_stats] takes the watchdog's lock and
    then waits for it in [is_healthy()], so it never answers. *)
Theorem get_stats_reads_without_lock :
  (forall (b : bool) (s : MotionQueue.t),
      MotionQueue.get_stats (MotionQueue.set_lock_field b s)
        = MotionQueue.get_stats s) /\
  (exists mid finished : MotionQueue.t,
      MotionQueue.update_midway 1 3 ESP32Serial.TxOk Scenario.two_queued
        = Some mid /\
      MotionQueue.update_midway 4 3 ESP32Serial.TxOk Scenario.two_queued
        = Some finished /\
      MotionQueue.update 3 ESP32Serial.TxOk Scenario.two_queued
        = Returns tt (MotionQueue.set_lock_field false finished) /\
      MotionQueue.lock mid = true /\
      MotionQueue.add (Scenario.move "270") mid = Blocks mid /\
      MotionQueue.wait_until_empty_poll mid = Blocks mid /\
      MotionQueue.stat_busy (MotionQueue.get_stats mid) = true /\
      MotionQueue.current (MotionQueue.get_stats mid) = None /\
      ~ MotionQueue.busy_iff_current mid) /\
  (forall (now now' : Q) (w : Watchdog.t),
      Watchdog.get_stats now now' w
        = Blocks (Watchdog.set_lock_field true w)).
Proof.
  split; [intros b s; destruct s; reflexivity|].
  split; [|exact get_stats_blocks].
  eexists; eexists.
  split; [reflexivity|]. split; [reflexivity|].
  split; [apply update_midway_complete; reflexivity|].
  repeat (split; [reflexivity|]).
  unfold MotionQueue.busy_iff_current; cbn. intros [_ H].
  apply (H eq_refl). reflexivity.
Qed.

End StatsReads.

(** ** The link layer *)

Section LinkClaims.

Import ESP32Serial.

(** What the fault subscriber is given: for every line with the prefix
    ["FAULT:"], and the generic subscriber served first, the text after
    the prefix, which is empty for the line ["FAULT:"] itself. *)
Lemma fault_reason_is_remainder (now : Q) (reason : string) (s : t) :
  startswith ("FAULT:" ++ reason)%string "FAULT:" = true /\
  snd (_handle_message now ("FAULT:" ++ reason)%string s) =
    call_if (on_message s) (OnMessage ("FAULT:" ++ reason)%string) ++
    call_if (on_fault s) (OnFault reason) /\
  snd (_handle_message now "FAULT:" s) =
    call_if (on_message s) (OnMessage "FAULT:") ++
    call_if (on_fault s) (OnFault "").
Proof.
  repeat split; reflexivity.
Qed.

(** C8, as the code has it.  The reason given to the fault subscriber is
    the text after the prefix, as the claim says, but for the line
    ["FAULT:"] it is the empty string and not ["UNKNOWN"]: the default
    is written in [_handle_message], under [else] of the test
    [":" in msg], and that test cannot fail on a message that begins
    with ["FAULT:"], so the default is never delivered, whatever the
    line, the time and the subscribers. *)
Theorem bare_fault_reason_is_empty :
  snd (_handle_message 1 "FAULT:" (MotionQueue.serial Scenario.idle))
    = [OnFault ""] /\
  ~ In (OnFault "UNKNOWN")
       (snd (_handle_message 1 "FAULT:" (MotionQueue.serial Scenario.idle))) /\
  (forall msg : string,
      startswith msg "FAULT:" = true -> contains ":" msg = true) /\
  (forall (now : Q) (reason : string) (s : t),
      In (OnFault "UNKNOWN")
         (snd (_handle_message now ("FAULT:" ++ reason)%string s)) ->
      reason = "UNKNOWN").
Proof.
  split; [reflexivity|].
  split; [cbn; intros [H | []]; discriminate H|].
  split.
  - intros msg H. apply startswith_app in H as [rest ->]. reflexivity.
  - intros now reason s H.
    destruct (fault_reason_is_remainder now reason s) as (_ & E & _).
    rewrite E in H. apply in_app_or in H as [H|H].
    + destruct (on_message s); cbn in H; [destruct H as [H|[]]|destruct H].
      discriminate H.
    + destruct (on_fault s); cbn in H; [destruct H as [H|[]]|destruct H].
      now injection H as <-.
Qed.

End LinkClaims.

(** ** The communicator *)

Section CommunicatorFacts.

Import ESP32Communicator.

Lemma command_log_put_queue (q : MotionQueue.t) (c : t) :
  command_log (put_queue q c) = command_log c.
Proof. reflexivity. Qed.

(** The priority path of a connected communicator ends in the queue's
    [emergency_stop], which waits for its own lock. *)
Lemma priority_send_blocks (now : Q) (tx : ESP32Serial.Transport)
    (command_string : string) (c : t) (q : MotionQueue.t) :
  is_connected c = true ->
  motion_queue c = Some q ->
  send_command now tx command_string true c =
    Blocks (put_queue (MotionQueue.set_lock_field true q) c).
Proof.
  intros Hc Hq. unfold send_command, on_queue. run_method.
  rewrite Hc, Hq. cbn. rewrite emergency_stop_blocks. reflexivity.
Qed.

(** A turn of the control loop does not touch the command log. *)
Lemma update_worker_keeps_log (now now' : Q)
    (tx tx' : ESP32Serial.Transport) (c : t) :
  command_log (state_of (_update_worker now now' tx tx' c))
    = command_log c.
Proof.
  unfold _update_worker, try_except, on_queue, on_watchdog. run_method.
  destruct (motion_queue c) as [q|] eqn:Hq; cbn.
  - destruct (MotionQueue.update now tx q) as [[] q1|e q1|q1]; cbn;
      try reflexivity.
    destruct (watchdog c) as [w|]; cbn; [|reflexivity].
    destruct (Watchdog.enabled w); cbn; [|reflexivity].
    destruct (Watchdog.check now' w) as [[] w1|[elapsed|] w1|w1]; cbn;
      try reflexivity.
    rewrite emergency_stop_blocks. reflexivity.
  - destruct (watchdog c) as [w|]; cbn; [|reflexivity].
    destruct (Watchdog.enabled w); cbn; [|reflexivity].
    destruct (Watchdog.check now' w) as [[] w1|[elapsed|] w1|w1]; cbn;
      try reflexivity.
    rewrite Hq. reflexivity.
Qed.

End CommunicatorFacts.

Section CommunicatorClaims.

Import ESP32Communicator.

(** C7, as the code has it.  On a connected communicator
    [send_command(cmd, priority=True)] calls the queue's
    [emergency_stop()], which never returns.  With four moves queued the
    four moves stay queued and no stop frame, nor anything else, is
    written to the link. *)
Theorem priority_send_leaves_queue
    (now : Q) (tx : ESP32Serial.Transport) (command_string : string) :
  let o := send_command now tx command_string true Scenario.four_queued in
  returned o = None /\
  (exists c, o = Blocks c) /\
  option_map MotionQueue.get_queue_size (motion_queue (state_of o))
    = Some 4 /\
  option_map MotionQueue.lock (motion_queue (state_of o)) = Some true /\
  option_map ESP32Serial.wire (serial_link (state_of o)) = Some [].
Proof.
  cbv zeta.
  rewrite (priority_send_blocks now tx command_string Scenario.four_queued
             _ eq_refl eq_refl).
  split; [reflexivity|]. split; [eexists; reflexivity|].
  repeat split; vm_compute; reflexivity.
Qed.

(** C10, as the code has it.  Priority path, connected: the call never
    returns, so it returns no [True] and appends nothing to the log; the
    command is not written to the link, and neither is the stop.
    Other path, connected, lock free, room in the queue and in the log:
    the call returns [True] and appends the command to the log with
    [sent] false; a turn of the control loop leaves the log as it is. *)
Theorem priority_send_logs_nothing
    (now : Q) (tx : ESP32Serial.Transport) (command_string : string) :
  (let o := send_command now tx command_string true Scenario.four_queued in
   returned o = None /\
   command_log (state_of o) = command_log Scenario.four_queued /\
   option_map ESP32Serial.wire (serial_link (state_of o)) = Some []) /\
  (forall (c : t) (q : MotionQueue.t),
      is_connected c = true ->
      motion_queue c = Some q ->
      MotionQueue.lock q = false ->
      len (MotionQueue.queue q) < MotionQueue.max_size q ->
      len (command_log c) < max_log_size c ->
      let o := send_command now tx command_string false c in
      returned o = Some true /\
      command_log (state_of o) =
        command_log c ++ [mkLogEntry now command_string false]) /\
  (forall (now' now'' : Q) (tx' tx'' : ESP32Serial.Transport) (c : t),
      command_log (state_of (_update_worker now' now'' tx' tx'' c))
        = command_log c).
Proof.
  split; [|split].
  - cbv zeta.
    rewrite (priority_send_blocks now tx command_string
               Scenario.four_queued _ eq_refl eq_refl).
    repeat split; reflexivity.
  - intros c q Hc Hq Hfree Hroom Hlog. cbv zeta.
    unfold send_command, on_queue, _log_command, MotionQueue.add.
    run_method. rewrite Hc, Hq. cbn.
    destruct q as [l qu m b cur st n1 n2 n3 lk]; cbn in *. subst lk. cbn.
    destruct (Z.geb_spec (len qu) m) as [Hge|_]; [lia|]. cbn.
    destruct (Z.gtb_spec
                (len (command_log c ++ [mkLogEntry now command_string false]))
                (max_log_size c)) as [Hgt|_].
    + rewrite len_app in Hgt. lia.
    + split; reflexivity.
  - intros. apply update_worker_keeps_log.
Qed.

End CommunicatorClaims.

(** * Further properties *)

(** ** Strings *)

Lemma append_assoc (a b c : string) :
  ((a ++ b) ++ c)%string = (a ++ (b ++ c))%string.
Proof. induction a as [|x a IH]; cbn; [reflexivity | now rewrite IH]. Qed.

Lemma append_empty_r (a : string) : (a ++ "")%string = a.
Proof. induction a as [|x a IH]; cbn; [reflexivity | now rewrite IH]. Qed.

Lemma length_append (a b : string) :
  String.length (a ++ b) = (String.length a + String.length b)%nat.
Proof. induction a as [|x a IH]; cbn; [reflexivity | now rewrite IH]. Qed.

Lemma substring_last (a : string) (c : ascii) :
  substring (String.length a) 1 (a ++ String c "") = String c "".
Proof. induction a as [|x a IH]; cbn; [reflexivity | exact IH]. Qed.

Lemma endswith_newline (a : string) :
  endswith (a ++ newline) newline = true.
Proof.
  unfold endswith, newline. rewrite length_append. cbn [String.length].
  replace (String.length a + 1 - 1)%nat with (String.length a) by lia.
  replace (1 <=? String.length a + 1)%nat with true
    by (symmetry; apply Nat.leb_le; lia).
  rewrite substring_last. apply String.eqb_refl.
Qed.

Lemma contains_append (c : ascii) (a b : string) :
  contains c (a ++ b) = contains c a || contains c b.
Proof.
  induction a as [|x a IH]; cbn; [reflexivity|].
  destruct (Ascii.eqb x c); [reflexivity | exact IH].
Qed.

(** [split(c, 1)] cuts at the first separator. *)
Lemma split1_first (c : ascii) (a b : string) :
  contains c a = false ->
  split1 c (a ++ String c b) = [a; b].
Proof.
  induction a as [|x a IH]; cbn.
  - intros _. now rewrite Ascii.eqb_refl.
  - destruct (Ascii.eqb x c); [discriminate|]. intro H.
    now rewrite (IH H).
Qed.

(** ** The link layer *)

Section LinkFacts.

Import ESP32Serial.

Lemma terminated_ends (command : string) :
  endswith (terminated command) newline = true.
Proof.
  unfold terminated. destruct (endswith command newline) eqn:E;
    [exact E | apply endswith_newline].
Qed.

Lemma joined_app (l1 l2 : list string) (rest : string) :
  joined (l1 ++ l2) rest = joined l1 (joined l2 rest).
Proof. unfold joined. apply fold_right_app. Qed.

Lemma joined_append (lines : list string) (rest text : string) :
  (joined lines rest ++ text)%string = joined lines (rest ++ text).
Proof.
  unfold joined.
  induction lines as [|l lines IH]; cbn [fold_right]; [reflexivity|].
  now rewrite !append_assoc, IH.
Qed.

Lemma length_joined (lines : list string) (rest : string) :
  (List.length lines <= String.length (joined lines rest))%nat.
Proof.
  unfold joined.
  induction lines as [|l lines IH]; cbn [fold_right List.length]; [lia|].
  rewrite !length_append. cbn [newline String.length]. lia.
Qed.

(** Every text is some newline-free lines, each with its newline, and a
    newline-free rest. *)
Lemma joined_exists (buffer : string) :
  exists lines rest,
    buffer = joined lines rest /\
    Forall (fun l => contains (ascii_of_nat 10) l = false) lines /\
    contains (ascii_of_nat 10) rest = false.
Proof.
  induction buffer as [|a buffer (lines & rest & Hb & Hl & Hr)].
  - exists [], "". repeat split; constructor.
  - destruct (Ascii.eqb a (ascii_of_nat 10)) eqn:Ea.
    + apply Ascii.eqb_eq in Ea. subst a.
      exists ("" :: lines), rest.
      split; [cbn [joined fold_right]; fold (joined lines rest);
              rewrite <- Hb; reflexivity|].
      split; [constructor; [reflexivity | exact Hl] | exact Hr].
    + destruct lines as [|l lines].
      * exists [], (String a rest). cbn [joined fold_right] in *.
        subst buffer.
        split; [reflexivity|]. split; [constructor|].
        cbn [contains]. now rewrite Ea.
      * exists (String a l :: lines), rest.
        cbn [joined fold_right] in *. subst buffer.
        inversion Hl; subst.
        split; [reflexivity|]. split; [|exact Hr].
        constructor; [|assumption]. cbn [contains]. now rewrite Ea.
Qed.

(** The loop takes exactly those lines and leaves exactly that rest. *)
Lemma take_lines_joined (lines : list string) (rest : string) (fuel : nat) :
  Forall (fun l => contains (ascii_of_nat 10) l = false) lines ->
  contains (ascii_of_nat 10) rest = false ->
  (List.length lines < fuel)%nat ->
  take_lines fuel (joined lines rest) = (lines, rest).
Proof.
  revert fuel. induction lines as [|l lines IH]; intros fuel Hl Hr Hfuel.
  - destruct fuel; [cbn in Hfuel; lia|].
    cbn [take_lines joined fold_right]. now rewrite Hr.
  - destruct fuel; [cbn in Hfuel; lia|]. inversion Hl; subst.
    cbn [joined fold_right take_lines]. fold (joined lines rest).
    rewrite contains_append. unfold newline at 1. cbn [append contains].
    rewrite Ascii.eqb_refl, orb_true_r.
    unfold newline. cbn [append]. rewrite split1_first by assumption.
    rewrite IH; [reflexivity | assumption | assumption | cbn in Hfuel; lia].
Qed.

End LinkFacts.

Section LinkProperties.

Import ESP32Serial.

Variable strip : string -> string.

(** X1. Whatever [send] puts on the wire ends with a newline, and a command
    that ends with one is written as it is.  [send] returns [True] only
    when it has written the frame; on a link that is not connected, or
    has no port, it returns [False] and changes nothing. *)
Theorem send_writes_terminated_frames
    (tx : Transport) (command : string) (s : t) :
  let r := send tx command s in
  endswith (terminated command) newline = true /\
  terminated (terminated command) = terminated command /\
  (fst r = true ->
   tx = TxOk /\ wire (snd r) = wire s ++ [terminated command]) /\
  (fst r = false ->
   wire (snd r) = wire s \/
   tx = TxFlushRaises /\ wire (snd r) = wire s ++ [terminated command]) /\
  (connected s = false \/ ser s = None -> r = (false, s)).
Proof.
  cbv zeta. split; [apply terminated_ends|].
  split; [unfold terminated at 1; now rewrite terminated_ends|].
  unfold send, wire, terminated.
  destruct s as [[|] [w|] la lt f1 f2 f3 f4 f5 f6]; cbn;
    destruct tx; cbn; repeat split; intros; try discriminate; auto;
    try (destruct H; discriminate).
Qed.

(** The calls of [_handle_message]: the generic subscriber, then at most
    one other. *)
Lemma handle_message_calls (now : Q) (msg : string) (s : t) :
  exists specific,
    snd (_handle_message now msg s)
      = call_if (on_message s) (OnMessage msg) ++ specific /\
    (List.length specific <= 1)%nat /\
    (forall m, ~ In (OnMessage m) specific) /\
    (msg <> "ACK:MOVE" -> msg <> "DONE:MOVE" -> msg <> "ACK:STOP" ->
     msg <> "HB" -> startswith msg "FAULT:" = false -> specific = []).
Proof.
  unfold _handle_message.
  remember (startswith msg "FAULT:") as fault_line eqn:Ef.
  destruct s as [c w la lt f1 f2 f3 f4 f5 f6]; cbn.
  eexists. split; [reflexivity|].
  assert (Hone : forall (b : bool) (c : Call),
             (forall m, c <> OnMessage m) ->
             (List.length (call_if b c) <= 1)%nat /\
             (forall m, ~ In (OnMessage m) (call_if b c))).
  { intros b c' Hc. destruct b; cbn; split; try lia.
    intros m [H|[]]. exact (Hc m H). }
  destruct (String.eqb_spec msg "ACK:MOVE") as [|N1];
    [destruct (Hone f1 OnAckMove) as [? ?];
     [discriminate | repeat split; auto; intros; contradiction]|].
  destruct (String.eqb_spec msg "DONE:MOVE") as [|N2];
    [destruct (Hone f2 OnDoneMove) as [? ?];
     [discriminate | repeat split; auto; intros; contradiction]|].
  destruct (String.eqb_spec msg "ACK:STOP") as [|N3];
    [destruct (Hone f3 OnAckStop) as [? ?];
     [discriminate | repeat split; auto; intros; contradiction]|].
  destruct fault_line.
  { match goal with |- context [call_if f4 ?c] =>
      destruct (Hone f4 c) as [? ?]; [discriminate|] end.
    repeat split; auto; intros; congruence. }
  destruct (String.eqb_spec msg "HB") as [|N5];
    [destruct (Hone f5 OnHeartbeat) as [? ?];
     [discriminate | repeat split; auto; intros; contradiction]|].
  cbn. repeat split; try lia; tauto.
Qed.

(** X2. [_handle_message] records the message and its time, calls the
    generic subscriber first when there is one, and then at most one
    specific subscriber; with no subscriber registered it calls nobody.
    A message that is none of ACK:MOVE, DONE:MOVE, ACK:STOP, HB and does
    not begin with FAULT: reaches the generic subscriber only.  The port
    is not touched. *)
Theorem handle_message_dispatch (now : Q) (msg : string) (s : t) :
  let r := _handle_message now msg s in
  get_last_ack (fst r) = (Some msg, now) /\
  wire (fst r) = wire s /\ connected (fst r) = connected s /\
  (exists specific,
      snd r = call_if (on_message s) (OnMessage msg) ++ specific /\
      (List.length specific <= 1)%nat /\
      (forall m, ~ In (OnMessage m) specific) /\
      (msg <> "ACK:MOVE" -> msg <> "DONE:MOVE" -> msg <> "ACK:STOP" ->
       msg <> "HB" -> startswith msg "FAULT:" = false -> specific = [])) /\
  (on_message s = false -> on_ack_move s = false ->
   on_done_move s = false -> on_ack_stop s = false ->
   on_fault s = false -> on_heartbeat s = false -> snd r = []).
Proof.
  cbv zeta. split; [destruct s; reflexivity|].
  split; [destruct s; reflexivity|]. split; [destruct s; reflexivity|].
  split; [apply handle_message_calls|].
  unfold _handle_message. destruct s as [c w la lt f1 f2 f3 f4 f5 f6]; cbn.
  intros -> -> -> -> -> ->. cbn.
  repeat match goal with |- context [if ?b then _ else _] =>
           destruct b end; reflexivity.
Qed.

(** What one turn of [_listen] takes and what it keeps. *)
Lemma listen_lines (buffer text : string) :
  exists lines rest,
    _listen strip buffer text = (messages strip lines, rest) /\
    joined lines rest = (buffer ++ text)%string /\
    Forall (fun l => contains (ascii_of_nat 10) l = false) lines /\
    contains (ascii_of_nat 10) rest = false.
Proof.
  destruct (joined_exists (buffer ++ text)) as (lines & rest & Hb & Hl & Hr).
  exists lines, rest. unfold _listen. rewrite Hb at 2.
  rewrite take_lines_joined; try assumption.
  - repeat split; auto.
  - rewrite Hb. pose proof (length_joined lines rest). lia.
Qed.


(** X4. How the decoded text is cut into reads does not matter: handling
    [t1] and then [t2] handles the same messages, in the same order, and
    keeps the same buffer as handling [t1 ++ t2] at once.  A line that
    arrives in two halves is handled once, whole. *)
Theorem listen_chunks_compose (buffer t1 t2 : string) :
  let r1 := _listen strip buffer t1 in
  let r2 := _listen strip (snd r1) t2 in
  _listen strip buffer (t1 ++ t2) = (fst r1 ++ fst r2, snd r2).
Proof.
  cbv zeta.
  destruct (listen_lines buffer t1) as (l1 & b1 & E1 & J1 & F1 & C1).
  rewrite E1. cbn [fst snd].
  destruct (listen_lines b1 t2) as (l2 & b2 & E2 & J2 & F2 & C2).
  rewrite E2. cbn [fst snd].
  assert (J : (buffer ++ t1 ++ t2)%string = joined (l1 ++ l2) b2).
  { rewrite joined_app, J2, <- joined_append, J1.
    symmetry. apply append_assoc. }
  unfold _listen. rewrite J at 2. rewrite take_lines_joined.
  - unfold messages. now rewrite map_app, filter_app.
  - apply Forall_app. split; assumption.
  - exact C2.
  - rewrite J. pose proof (length_joined (l1 ++ l2) b2). lia.
Qed.

End LinkProperties.

(** ** The motion queue, over sequences of operations *)

Section MotionQueueRuns.

Import MotionQueue.

Lemma run_app (a b : list Op) (s : t) : run (a ++ b) s = run b (run a s).
Proof. unfold run. apply fold_left_app. Qed.

(** With the lock held, an operation is left waiting and changes
    nothing. *)
Lemma step_locked (op : Op) (s : t) : lock s = true -> step op s = s.
Proof.
  intro H. destruct op; unfold step;
    try (rewrite emergency_stop_blocks; now apply set_lock_taken);
    unfold add, update, on_done, clear;
    destruct s as [l q m b c st n1 n2 n3 lk]; cbn in H; subst lk;
    run_method; reflexivity.
Qed.

Lemma run_locked (ops : list Op) (s : t) : lock s = true -> run ops s = s.
Proof.
  intro H. induction ops as [|op ops IH]; [reflexivity|].
  unfold run in *. cbn. rewrite (step_locked op s H). exact IH.
Qed.

(** What one operation does to the length and to the counters. *)
Lemma step_accounts (op : Op) (s : t) :
  let s' := step op s in
  max_size s' = max_size s /\
  (len (queue s) <= max_size s -> len (queue s') <= max_size s) /\
  commands_sent s <= commands_sent s' <= commands_sent s + 1 /\
  commands_completed s <= commands_completed s'
    <= commands_completed s + 1 /\
  commands_dropped s <= commands_dropped s' <= commands_dropped s + 1 /\
  (commands_sent s = commands_completed s + (if busy s then 1 else 0) ->
   commands_sent s' = commands_completed s' + (if busy s' then 1 else 0)).
Proof.
  cbv zeta.
  destruct op as [command|now tx| | |tx]; unfold step;
    try (rewrite emergency_stop_blocks; destruct s; cbn; repeat split;
         intros; lia).
  - unfold add. destruct s as [l q m b c st n1 n2 n3 [|]]; run_method;
      [repeat split; intros; lia|].
    destruct (Z.geb_spec (len q) m); cbn; repeat split; intros; try lia.
    rewrite len_app. lia.
  - unfold update. destruct s as [l q m b c st n1 n2 n3 [|]]; run_method;
      [repeat split; intros; lia|].
    destruct b; [cbn; repeat split; intros; lia|].
    destruct q as [|command rest]; [cbn; repeat split; intros; lia|]. cbn.
    destruct (ESP32Serial.send tx command l) as [[|] link]; cbn;
      repeat split; intros; try lia;
      unfold len in *; cbn [List.length] in *; lia.
  - unfold on_done. destruct s as [l q m b c st n1 n2 n3 [|]]; run_method;
      [repeat split; intros; lia|].
    destruct b; cbn; repeat split; intros; lia.
  - unfold clear. destruct s as [l q m b c st n1 n2 n3 [|]]; run_method;
      repeat split; intros; try lia.
    unfold len in *. cbn. lia.
Qed.

(** X5. A queue that is within its bound stays within it, whatever
    operations are applied, and the bound itself is never changed. *)
Theorem queue_stays_within_max_size (ops : list Op) (s : t)
    (Hbound : len (queue s) <= max_size s) :
  len (queue (run ops s)) <= max_size s /\
  max_size (run ops s) = max_size s.
Proof.
  revert s Hbound. induction ops as [|op ops IH]; intros s Hbound.
  - split; [exact Hbound | reflexivity].
  - destruct (step_accounts op s) as (Hm & Hq & _). cbv zeta in *.
    change (run (op :: ops) s) with (run ops (step op s)).
    destruct (IH (step op s)) as [H1 H2]; [rewrite Hm; auto|].
    rewrite Hm in H1, H2. split; assumption.
Qed.

Lemma queue_stays_within_max_size_witness :
  len (queue (run [Add "a"; Add "b"; Add "c"; Update 1 ESP32Serial.TxOk;
                   Add "d"; Clear; Add "e"]
                (init Scenario.link 2))) <= 2.
Proof.
  refine (proj1 (queue_stays_within_max_size _ (init Scenario.link 2) _)).
  cbn. lia.
Defined.

(** X6. No operation decreases a counter or adds more than one to it, and
    in every state reached from a new queue the completed commands are
    no more than the sent ones. *)
Theorem counters_only_grow
    (serial_link : ESP32Serial.t) (max : Z) (ops : list Op) (op : Op) :
  let s := run ops (init serial_link max) in
  commands_completed s <= commands_sent s /\
  0 <= commands_completed s /\ 0 <= commands_dropped s /\
  commands_sent s <= commands_sent (step op s) <= commands_sent s + 1 /\
  commands_completed s <= commands_completed (step op s)
    <= commands_completed s + 1 /\
  commands_dropped s <= commands_dropped (step op s)
    <= commands_dropped s + 1.
Proof.
  cbv zeta.
  assert (H : forall ops s,
             commands_sent s
               = commands_completed s + (if busy s then 1 else 0) ->
             0 <= commands_completed s -> 0 <= commands_dropped s ->
             let s' := run ops s in
             commands_sent s'
               = commands_completed s' + (if busy s' then 1 else 0) /\
             0 <= commands_completed s' /\ 0 <= commands_dropped s').
  { clear. induction ops as [|op ops IH]; intros s H1 H2 H3; cbv zeta.
    - auto.
    - change (run (op :: ops) s) with (run ops (step op s)).
      destruct (step_accounts op s) as (_ & _ & _ & Hc & Hd & Hi).
      cbv zeta in *. apply IH; [auto | lia | lia]. }
  destruct (H ops (init serial_link max)) as (H1 & H2 & H3);
    [reflexivity | cbn; lia | cbn; lia |]. cbv zeta in H1.
  destruct (step_accounts op (run ops (init serial_link max)))
    as (_ & _ & Hs & Hc & Hd & _). cbv zeta in *.
  repeat split; try lia.
  destruct (busy (run ops (init serial_link max))); lia.
Qed.

(** X7. After [emergency_stop()] the queue is dead: every later
    operation, by any thread, is left waiting for the lock, the poll of
    [wait_until_empty] included, whatever its timeout; and the state,
    the pending commands and the wire with it, never changes again. *)
Theorem nothing_runs_after_emergency_stop
    (tx : ESP32Serial.Transport) (ops : list Op) (s : t) :
  let stopped := step (EmergencyStop tx) s in
  run ops stopped = stopped /\
  queue stopped = queue s /\
  ESP32Serial.wire (serial stopped) = ESP32Serial.wire (serial s) /\
  (forall command, add command stopped = Blocks stopped) /\
  (forall now tx', update now tx' stopped = Blocks stopped) /\
  on_done stopped = Blocks stopped /\
  clear stopped = Blocks stopped /\
  wait_until_empty_poll stopped = Blocks stopped /\
  (forall tx', emergency_stop tx' stopped = Blocks stopped).
Proof.
  cbv zeta.
  assert (E : step (EmergencyStop tx) s = set_lock_field true s)
    by (unfold step; now rewrite emergency_stop_blocks).
  rewrite E.
  assert (Hl : lock (set_lock_field true s) = true)
    by (destruct s; reflexivity).
  split; [apply run_locked, Hl|].
  split; [destruct s; reflexivity|]. split; [destruct s; reflexivity|].
  repeat split; intros;
    try (rewrite emergency_stop_blocks; destruct s; reflexivity);
    unfold add, update, on_done, clear, wait_until_empty_poll; destruct s;
    run_method; reflexivity.
Qed.

End MotionQueueRuns.

Section MotionQueueOrder.

Import MotionQueue.

Lemma adds_queue (cs : list string) (s : t) :
  lock s = false ->
  len (queue s) + len cs <= max_size s ->
  run (map Add cs) s = set_queue (queue s ++ cs) s.
Proof.
  revert s. induction cs as [|c cs IH]; intros s Hfree Hroom.
  - cbn. rewrite app_nil_r. destruct s; reflexivity.
  - change (run (map Add (c :: cs)) s)
      with (run (map Add cs) (step (Add c) s)).
    assert (E : step (Add c) s = set_queue (queue s ++ [c]) s).
    { unfold step, add. destruct s as [l q m b cc st n1 n2 n3 lk].
      cbn in *. subst lk. run_method.
      destruct (Z.geb_spec (len q) m) as [Hge|_]; [|reflexivity].
      unfold len in *. cbn [List.length] in Hroom. lia. }
    rewrite E, IH.
    + destruct s; cbn. now rewrite <- app_assoc.
    + destruct s; exact Hfree.
    + destruct s; cbn in *. rewrite len_app. unfold len in *.
      cbn [List.length] in Hroom. lia.
Qed.

(** One send and its acknowledgment. *)
Lemma cycle_ready (now : Q) (c : string) (rest w : list string) (s : t) :
  ready s w (c :: rest) ->
  let s' := run [Update now ESP32Serial.TxOk; OnDone] s in
  ready s' (w ++ [ESP32Serial.terminated c]) rest /\
  max_size s' = max_size s /\
  commands_sent s' = commands_sent s + 1 /\
  commands_completed s' = commands_completed s + 1 /\
  commands_dropped s' = commands_dropped s.
Proof.
  unfold ready. intros (Hl & Hb & Hq & Hc & Hp). cbv zeta.
  unfold run, step, update, on_done. cbn [fold_left].
  destruct s as [[cn sr la lt f1 f2 f3 f4 f5 f6] q m b cc st n1 n2 n3 lk].
  cbn in Hl, Hb, Hq, Hc, Hp. subst lk b q cn sr.
  run_method. unfold ESP32Serial.terminated. repeat split; reflexivity.
Qed.

Lemma cycles_ready (now : Q) (q w : list string) (s : t) :
  ready s w q ->
  let s' :=
    run (flat_map (fun _ => [Update now ESP32Serial.TxOk; OnDone]) q) s in
  ready s' (w ++ map ESP32Serial.terminated q) [] /\
  max_size s' = max_size s /\
  commands_sent s' = commands_sent s + len q /\
  commands_completed s' = commands_completed s + len q /\
  commands_dropped s' = commands_dropped s.
Proof.
  revert w s. induction q as [|c rest IH]; intros w s Hr; cbv zeta.
  - cbn. rewrite app_nil_r. unfold len; cbn.
    split; [exact Hr|]. repeat split; lia.
  - cbn [flat_map]. rewrite run_app.
    destruct (cycle_ready now c rest w s Hr) as (Hr1 & Hm & Hs & Hc & Hd).
    cbv zeta in *.
    destruct (IH _ _ Hr1) as (Hr2 & Hm2 & Hs2 & Hc2 & Hd2). cbv zeta in *.
    cbn [map]. rewrite <- app_assoc in Hr2. cbn [app] in Hr2.
    unfold len in *. cbn [List.length].
    split; [exact Hr2|]. repeat split; lia.
Qed.

(** X8. First in, first out.  Queue the commands [cs] on an idle, empty
    queue that has room for them, on a connected link; then let the
    control loop send and the device acknowledge, once per command.  The
    commands go on the wire in the order they were added, each as one
    terminated frame; the queue ends empty and idle, and [sent] and
    [completed] have both grown by the number of commands, with nothing
    dropped. *)
Theorem commands_are_sent_in_order
    (now : Q) (cs w : list string) (s : t)
    (Hfree : lock s = false) (Hidle : busy s = false)
    (Hempty : queue s = [])
    (Hconnected : ESP32Serial.connected (serial s) = true)
    (Hport : ESP32Serial.ser (serial s) = Some w)
    (Hroom : len cs <= max_size s) :
  let queued := run (map Add cs) s in
  let finished :=
    run (flat_map (fun _ => [Update now ESP32Serial.TxOk; OnDone]) cs)
      queued in
  queue queued = cs /\
  ESP32Serial.wire (serial finished) = w ++ map ESP32Serial.terminated cs /\
  queue finished = [] /\ busy finished = false /\
  commands_sent finished = commands_sent s + len cs /\
  commands_completed finished = commands_completed s + len cs /\
  commands_dropped finished = commands_dropped s.
Proof.
  cbv zeta.
  rewrite adds_queue by (rewrite ?Hempty; unfold len in *; cbn; lia || auto).
  rewrite Hempty. cbn [app].
  assert (Hr : ready (set_queue cs s) w cs)
    by (unfold ready; destruct s; cbn in *; auto).
  destruct (cycles_ready now cs w _ Hr)
    as ((_ & Hb & Hq & _ & Hp) & _ & Hs & Hc & Hd).
  cbv zeta in *. unfold ESP32Serial.wire. rewrite Hp.
  split; [destruct s; reflexivity|]. split; [reflexivity|].
  split; [exact Hq|]. split; [exact Hb|].
  rewrite Hs, Hc, Hd. destruct s; cbn. auto.
Qed.

Lemma commands_are_sent_in_order_witness :
  ESP32Serial.wire
    (serial
       (run (flat_map (fun _ => [Update 1 ESP32Serial.TxOk; OnDone])
               ["A"; "B"; "C"])
          (run (map Add ["A"; "B"; "C"]) Scenario.idle)))
  = [] ++ map ESP32Serial.terminated ["A"; "B"; "C"].
Proof.
  refine (proj1 (proj2 (commands_are_sent_in_order 1 ["A"; "B"; "C"] []
                          Scenario.idle eq_refl eq_refl eq_refl eq_refl
                          eq_refl _))).
  cbn. lia.
Defined.

(** X9. A send that fails is retried on every tick, for ever: however
    many ticks pass while the write raises, the queue, the counters and
    the wire stay as they were and nothing is dropped.  When it is the
    flush that raises, the frame has been written each time, so the
    wire holds one copy of the head command per tick. *)
Theorem failed_send_is_retried
    (now : Q) (n : nat) (c : string) (rest w : list string) (s : t)
    (Hfree : lock s = false) (Hidle : busy s = false)
    (Hqueue : queue s = c :: rest)
    (Hconnected : ESP32Serial.connected (serial s) = true)
    (Hport : ESP32Serial.ser (serial s) = Some w) :
  run (repeat (Update now ESP32Serial.TxWriteRaises) n) s = s /\
  let s' := run (repeat (Update now ESP32Serial.TxFlushRaises) n) s in
  queue s' = c :: rest /\ busy s' = false /\
  commands_sent s' = commands_sent s /\
  commands_dropped s' = commands_dropped s /\
  ESP32Serial.wire (serial s') = w ++ repeat (ESP32Serial.terminated c) n.
Proof.
  split.
  - induction n as [|n IH]; [reflexivity|].
    cbn [repeat]. change (run (?op :: ?ops) s) with (run ops (step op s)).
    replace (step (Update now ESP32Serial.TxWriteRaises) s) with s;
      [exact IH|].
    unfold step, update.
    destruct s as [[cn sr la lt f1 f2 f3 f4 f5 f6] q m b cc st n1 n2 n3 lk].
    cbn in *. subst lk b q cn sr. run_method. reflexivity.
  - cbv zeta. revert w s Hfree Hidle Hqueue Hconnected Hport.
    induction n as [|n IH]; intros w s Hfree Hidle Hqueue Hconnected Hport.
    + cbn. unfold ESP32Serial.wire. rewrite Hport, app_nil_r. auto.
    + cbn [repeat].
      change (run (?op :: ?ops) s) with (run ops (step op s)).
      set (s1 := step (Update now ESP32Serial.TxFlushRaises) s).
      assert (H1 : lock s1 = false /\ busy s1 = false /\
                   queue s1 = c :: rest /\
                   ESP32Serial.connected (serial s1) = true /\
                   ESP32Serial.ser (serial s1)
                     = Some (w ++ [ESP32Serial.terminated c]) /\
                   commands_sent s1 = commands_sent s /\
                   commands_dropped s1 = commands_dropped s).
      { subst s1. unfold step, update.
        destruct s as [[cn sr la lt f1 f2 f3 f4 f5 f6] q m b cc st n1 n2 n3 lk].
        cbn in *. subst lk b q cn sr. run_method.
        unfold ESP32Serial.terminated. repeat split; reflexivity. }
      destruct H1 as (A1 & A2 & A3 & A4 & A5 & A6 & A7).
      destruct (IH _ s1 A1 A2 A3 A4 A5) as (B1 & B2 & B3 & B4 & B5).
      rewrite B1, B2, B3, B4, B5, A6, A7, <- app_assoc.
      repeat split; reflexivity.
Qed.

Lemma failed_send_is_retried_witness :
  ESP32Serial.wire
    (serial (run (repeat (Update 1 ESP32Serial.TxFlushRaises) 3)
               Scenario.two_queued))
  = [] ++ repeat (ESP32Serial.terminated (Scenario.move "90")) 3.
Proof.
  refine (proj2 (proj2 (proj2 (proj2 (proj2
            (failed_send_is_retried 1 3 (Scenario.move "90")
               [Scenario.move "180"] [] Scenario.two_queued
               eq_refl eq_refl eq_refl eq_refl eq_refl)))))).
Defined.

End MotionQueueOrder.

(** ** The watchdog, further *)

Section WatchdogRuns.

Import Watchdog.

Lemma Qgtb_false (x y : Q) : Qgtb x y = false <-> (x <= y)%Q.
Proof.
  unfold Qgtb. rewrite negb_false_iff. apply Qle_bool_iff.
Qed.

Lemma timeout_calls_snoc (s : t) (c : Call) (l : list Call) :
  calls s = l ++ [c] ->
  timeout_calls s =
    (List.length (filter (fun c => match c with OnTimeout _ => true
                                             | _ => false end) l)
     + match c with OnTimeout _ => 1 | _ => 0 end)%nat.
Proof.
  unfold timeout_calls. intros ->. rewrite filter_app, length_app.
  destruct c; reflexivity.
Qed.

(** With the lock held, an operation changes nothing: it is left waiting,
    or, for [check] on a disabled watchdog, returns at once. *)
Lemma watchdog_step_locked (op : Op) (s : t) :
  lock s = true -> step op s = s.
Proof.
  intro H. destruct op; unfold step;
    try (rewrite get_stats_blocks; destruct s; cbn in *; now subst);
    unfold kick, heartbeat, check, is_healthy, enable, disable, reset,
      set_timeout;
    destruct s as [tm hb lr lh en fd k tc hc ot orc lk cs]; cbn in H;
    subst lk; run_method; try reflexivity.
  destruct en; reflexivity.
Qed.

Lemma watchdog_run_locked (ops : list Op) (s : t) :
  lock s = true -> run ops s = s.
Proof.
  intro H. induction ops as [|op ops IH]; [reflexivity|].
  unfold run in *. cbn. rewrite (watchdog_step_locked op s H). exact IH.
Qed.

(** [check] on an enabled, healthy watchdog with the lock free, over its
    response timeout. *)
Lemma check_late (now : Q) (s : t) :
  lock s = false -> enabled s = true -> fault_detected s = false ->
  (timeout s < now - last_response s)%Q ->
  check now s =
    Raises (WatchdogTimeout (now - last_response s))
      (set_calls
         (calls s ++ (if on_timeout s
                      then [OnTimeout (now - last_response s)] else []))
         (set_timeout_count (timeout_count s + 1)
            (set_fault_detected true s))).
Proof.
  unfold check.
  destruct s as [tm hb lr lh en fd k tc hc ot orc lk cs]; cbn.
  intros -> -> -> Hr. apply Qgtb_true in Hr. run_method. rewrite Hr. cbn.
  destruct ot; cbn; [reflexivity | now rewrite app_nil_r].
Qed.

Lemma rounding_slack_nonneg (timeout : Q) :
  (0 <= rounding_slack timeout)%Q.
Proof.
  unfold rounding_slack.
  apply (Qplus_le_compat 0 _ 0); [|discriminate].
  apply Qmult_le_0_compat; [|discriminate].
  apply Qmult_le_0_compat; [apply Qabs_nonneg | discriminate].
Qed.

(** X10. When [check] raises and when it does not.  With the lock free:
    a disabled or already faulted watchdog is left exactly as it was,
    and so is one whose response timer is within [timeout] and whose
    heartbeat timer, if heartbeats are monitored, is below
    [timeout * 1.5] by the rounding slack of that product or more; an
    enabled, healthy one whose response timer is over [timeout] raises
    with the time since the last response; and one whose response timer
    is within [timeout] but whose heartbeat timer, with monitoring on,
    is over [timeout * 1.5] by more than the slack raises with the time
    since the last heartbeat.  Nearer to [timeout * 1.5] than the slack
    the outcome is one of these two.  A raise sets the flag, counts one
    timeout and tells the subscriber, if there is one. *)
Theorem check_raises_when (now : Q) (s : t)
    (Hfree : lock s = false) :
  let since_response := (now - last_response s)%Q in
  let since_heartbeat := (now - last_heartbeat s)%Q in
  let limit := (timeout s * (3 # 2))%Q in
  let slack := rounding_slack (timeout s) in
  let fired elapsed :=
    set_calls (calls s ++ (if on_timeout s then [OnTimeout elapsed] else []))
      (set_timeout_count (timeout_count s + 1)
         (set_fault_detected true s)) in
  (enabled s = false \/ fault_detected s = true \/
   (since_response <= timeout s)%Q /\
   (enable_heartbeat s = false \/
    (since_heartbeat <= limit - slack)%Q) ->
   check now s = Returns tt s) /\
  (enabled s = true -> fault_detected s = false ->
   (timeout s < since_response)%Q ->
   check now s = Raises (WatchdogTimeout since_response)
                   (fired since_response)) /\
  (enabled s = true -> fault_detected s = false ->
   (since_response <= timeout s)%Q ->
   enable_heartbeat s = true ->
   (limit + slack < since_heartbeat)%Q ->
   check now s = Raises (WatchdogTimeout since_heartbeat)
                   (fired since_heartbeat)) /\
  (enabled s = true -> fault_detected s = false ->
   (since_response <= timeout s)%Q ->
   enable_heartbeat s = true ->
   check now s = Returns tt s \/
   check now s = Raises (WatchdogTimeout since_heartbeat)
                   (fired since_heartbeat)) /\
  fault_detected (fired since_response) = true /\
  timeout_count (fired since_response) = timeout_count s + 1 /\
  fault_detected (fired since_heartbeat) = true /\
  timeout_count (fired since_heartbeat) = timeout_count s + 1.
Proof.
  cbv zeta. pose proof (rounding_slack_nonneg (timeout s)) as Hslack.
  revert Hslack. generalize (rounding_slack (timeout s)). intros slack Hslack.
  unfold check.
  destruct s as [tm hb lr lh en fd k tc hc ot orc lk cs]; cbn in *.
  subst lk. split; [|split; [|split; [|split]]].
  - intros [-> | [-> | [Hr Hh]]]; [reflexivity | |].
    + destruct en; [|reflexivity]. run_method.
      destruct (Qgtb (now - lr) tm); cbn; destruct hb; cbn;
        try reflexivity;
        destruct (Qgtb (now - lh) (tm * (3 # 2))); reflexivity.
    + destruct en; [|reflexivity]. run_method.
      apply Qgtb_false in Hr. rewrite Hr. cbn.
      destruct Hh as [-> | Hh]; [reflexivity|].
      assert (Hh' : (now - lh <= tm * (3 # 2))%Q) by lra.
      apply Qgtb_false in Hh'. destruct hb; cbn; [|reflexivity].
      rewrite Hh'. reflexivity.
  - intros -> -> Hr. apply Qgtb_true in Hr. run_method. rewrite Hr. cbn.
    destruct ot; cbn; [reflexivity | now rewrite app_nil_r].
  - intros -> -> Hr -> Hh. apply Qgtb_false in Hr.
    assert (Hh' : (tm * (3 # 2) < now - lh)%Q) by lra.
    apply Qgtb_true in Hh'.
    run_method. rewrite Hr. cbn. rewrite Hh'. cbn.
    destruct ot; cbn; [reflexivity | now rewrite app_nil_r].
  - intros -> -> Hr ->. apply Qgtb_false in Hr. run_method. rewrite Hr. cbn.
    destruct (Qgtb (now - lh) (tm * (3 # 2))); cbn; [right | left];
      [|reflexivity].
    destruct ot; cbn; [reflexivity | now rewrite app_nil_r].
  - repeat split; reflexivity.
Qed.

Lemma check_raises_when_witness :
  check 1 (init 1 true 0 0) = Returns tt (init 1 true 0 0) /\
  check (8 # 5) (state_of (kick 1 (init 1 true 0 0)))
    = Raises (WatchdogTimeout ((8 # 5) - 0))
        (set_calls []
           (set_timeout_count 1
              (set_fault_detected true
                 (state_of (kick 1 (init 1 true 0 0)))))).
Proof.
  split.
  - apply (proj1 (check_raises_when 1 (init 1 true 0 0) eq_refl)).
    right. right. split; [|right]; vm_compute; discriminate.
  - apply (proj1 (proj2 (proj2 (check_raises_when (8 # 5)
                           (state_of (kick 1 (init 1 true 0 0)))
                           eq_refl))));
      try reflexivity; vm_compute; (discriminate || reflexivity).
Defined.

(** [kick] with the lock free, in one step. *)
Lemma kick_free (now : Q) (s : t) :
  lock s = false ->
  kick now s =
    Returns tt
      (set_calls
         (calls s ++ (if fault_detected s && on_recovery s then [OnRecovery]
                      else []))
         (set_fault_detected false
            (set_kick_count (kick_count s + 1)
               (set_last_response now s)))).
Proof.
  unfold kick.
  destruct s as [tm hb lr lh en fd k tc hc ot orc lk cs]; cbn.
  intros ->. run_method.
  destruct fd, orc; cbn; rewrite ?app_nil_r; reflexivity.
Qed.

(** X11. Recovery.  With the lock free, [kick] returns with the response
    timer restarted, one more kick counted and the fault flag clear.  It
    calls the recovery subscriber when, and only when, the flag was set
    and there is a subscriber, so once per fault: the next [kick] calls
    nobody.  It does not touch the timeout counter. *)
Theorem kick_recovers_once (now now' : Q) (s : t)
    (Hfree : lock s = false) :
  let s1 := state_of (kick now s) in
  let s2 := state_of (kick now' s1) in
  kick now s = Returns tt s1 /\
  fault_detected s1 = false /\
  last_response s1 = now /\
  kick_count s1 = kick_count s + 1 /\
  timeout_count s1 = timeout_count s /\
  calls s1 =
    calls s ++ (if fault_detected s && on_recovery s then [OnRecovery]
                else []) /\
  kick now' s1 = Returns tt s2 /\
  calls s2 = calls s1.
Proof.
  cbv zeta. rewrite (kick_free now s Hfree). cbn [state_of].
  rewrite kick_free by (destruct s; exact Hfree). cbn [state_of].
  destruct s as [tm hb lr lh en fd k tc hc ot orc lk cs].
  cbn [calls fault_detected on_recovery last_response kick_count
       timeout_count set_calls set_fault_detected set_kick_count
       set_last_response enabled enable_heartbeat timeout last_heartbeat
       heartbeat_count on_timeout lock andb].
  rewrite app_nil_r. repeat split; reflexivity.
Qed.

Lemma kick_recovers_once_witness :
  calls (state_of (kick 2 (set_on_recovery true Scenario.faulted)))
    = calls (set_on_recovery true Scenario.faulted) ++ [OnRecovery].
Proof.
  exact (proj1 (proj2 (proj2 (proj2 (proj2 (proj2
           (kick_recovers_once 2 3 (set_on_recovery true Scenario.faulted)
              eq_refl))))))).
Defined.

(** X12. [heartbeat()] freezes the watchdog.  With the lock free it
    records the heartbeat time and count and is then left waiting for
    the lock it holds, so the kick inside it never happens: the
    response timer, the kick counter and the fault flag are as before.
    From then on no operation changes the watchdog, and [check] never
    raises again, however long the link stays silent. *)
Theorem heartbeat_freezes_watchdog
    (now now' later : Q) (ops : list Op) (s : t)
    (Hfree : lock s = false) :
  let s1 := state_of (heartbeat now now' s) in
  heartbeat now now' s = Blocks s1 /\
  last_heartbeat s1 = now /\
  heartbeat_count s1 = heartbeat_count s + 1 /\
  last_response s1 = last_response s /\
  kick_count s1 = kick_count s /\
  fault_detected s1 = fault_detected s /\
  run ops s1 = s1 /\
  (check later s1 = Blocks s1 \/ check later s1 = Returns tt s1).
Proof.
  cbv zeta. rewrite heartbeat_blocks by exact Hfree. cbn [state_of].
  destruct s as [tm hb lr lh en fd k tc hc ot orc lk cs]; cbn in *.
  subst lk. do 6 (split; [reflexivity|]).
  split; [apply watchdog_run_locked; reflexivity|].
  unfold check. cbn. destruct en; [left | right]; reflexivity.
Qed.

Lemma heartbeat_freezes_watchdog_witness :
  check 100 (state_of (heartbeat 1 1 Scenario.watched))
    = Blocks (state_of (heartbeat 1 1 Scenario.watched)) \/
  check 100 (state_of (heartbeat 1 1 Scenario.watched))
    = Returns tt (state_of (heartbeat 1 1 Scenario.watched)).
Proof.
  exact (proj2 (proj2 (proj2 (proj2 (proj2 (proj2 (proj2
           (heartbeat_freezes_watchdog 1 1 100 [] Scenario.watched
              eq_refl)))))))).
Defined.

End WatchdogRuns.

Section WatchdogBookkeeping.

Import Watchdog.

Lemma step_accounted (op : Op) (s : t) :
  accounted s -> accounted (step op s).
Proof.
  unfold accounted, timeout_calls, recovery_calls.
  intros (Hot & Hc & Hr).
  destruct op; unfold step;
    try (rewrite get_stats_blocks; destruct s; cbn in *; auto);
    unfold kick, heartbeat, check, is_healthy, enable, disable, reset,
      set_timeout;
    destruct s as [tm hb lr lh en fd k tc hc ot orc [|] cs]; cbn in *;
    subst ot; run_method; auto.
  - (* kick *)
    destruct fd; cbn; [|auto]. destruct orc; cbn.
    + rewrite !filter_app, !length_app. cbn. repeat split; auto; lia.
    + repeat split; auto; lia.
  - (* check, lock held *)
    destruct en; cbn; auto.
  - (* check *)
    destruct en; [|cbn; auto]. run_method.
    destruct (Qgtb (now - lr) tm); cbn.
    + destruct fd; cbn.
      * destruct hb; cbn; [|auto].
        destruct (Qgtb (now - lh) (tm * (3 # 2))); cbn; auto.
      * rewrite !filter_app, !length_app. cbn. repeat split; auto; lia.
    + destruct hb; cbn; [|auto].
      destruct (Qgtb (now - lh) (tm * (3 # 2))); cbn; [|auto].
      destruct fd; cbn; [auto|].
      rewrite !filter_app, !length_app. cbn. repeat split; auto; lia.
  - (* reset *)
    repeat split; auto. destruct fd; lia.
Qed.

(** X13. On a watchdog created with a timeout subscriber, whatever
    operations follow: the timeout counter is the number of times the
    subscriber was called, so every counted timeout was reported and
    reported once; and the recovery subscriber was called at most once
    per timeout, with one call still to come at most while the fault
    flag is set. *)
Theorem timeouts_are_reported
    (timeout : Q) (heartbeats recovery : bool) (t1 t2 : Q)
    (ops : list Op) :
  let s := run ops (set_on_recovery recovery
                      (set_on_timeout true
                         (init timeout heartbeats t1 t2))) in
  timeout_count s = Z.of_nat (timeout_calls s) /\
  (recovery_calls s + (if fault_detected s then 1 else 0)
   <= timeout_calls s)%nat.
Proof.
  cbv zeta.
  assert (H : forall ops s, accounted s -> accounted (run ops s)).
  { clear. induction ops as [|op ops IH]; intros s Hs; [exact Hs|].
    change (run (op :: ops) s) with (run ops (step op s)).
    apply IH, step_accounted, Hs. }
  apply (H ops). unfold accounted. cbn. repeat split; lia.
Qed.



End WatchdogBookkeeping.

(** ** The command log *)

Section CommandLog.

Import ESP32Communicator.

Lemma length_skipn_Z {A} (k : nat) (l : list A) :
  len (skipn k l) = Z.max 0 (len l - Z.of_nat k).
Proof. unfold len. rewrite length_skipn. lia. Qed.

(** [l[-n:]] for a positive [n] is the last [n] elements, or all of [l]
    when it has fewer. *)
Lemma last_n_suffix {A} (n : Z) (l : list A) :
  0 < n ->
  (exists older, l = older ++ last_n n l) /\
  len (last_n n l) = Z.min n (len l).
Proof.
  intro Hn. unfold last_n. fold (len l).
  destruct (Z.ltb_spec (- n) 0) as [_|H]; [|lia].
  split.
  - exists (firstn (Z.to_nat (Z.max 0 (len l + - n))) l).
    symmetry. apply firstn_skipn.
  - rewrite length_skipn_Z. unfold len. lia.
Qed.

(** X15. The log is a ring buffer.  With a cap of at least one and a log
    within the cap, [_log_command] keeps the log within the cap and
    leaves the cap alone; the new entry is the last one; and the log is
    the old one with the new entry after it when there was room, and
    otherwise that with exactly its oldest entry gone. *)
Theorem log_command_keeps_the_latest
    (now : Q) (command_string : string) (was_sent : bool) (c : t)
    (Hcap : 1 <= max_log_size c)
    (Hlen : len (command_log c) <= max_log_size c) :
  let entry := mkLogEntry now command_string was_sent in
  let c' := state_of (_log_command now command_string was_sent c) in
  _log_command now command_string was_sent c = Returns tt c' /\
  max_log_size c' = max_log_size c /\
  len (command_log c') <= max_log_size c /\
  last (command_log c') entry = entry /\
  (len (command_log c) < max_log_size c ->
   command_log c' = command_log c ++ [entry]) /\
  (len (command_log c) = max_log_size c ->
   command_log c' = tl (command_log c) ++ [entry]).
Proof.
  cbv zeta. unfold _log_command. run_method.
  destruct c as [ic sl mq wd log cap ew rn]; cbn in *.
  destruct (Z.gtb_spec (len (log ++ [mkLogEntry now command_string was_sent]))
              cap) as [Hgt|Hle]; cbn.
  - rewrite len_app in Hgt.
    assert (Heq : len log = cap) by lia.
    assert (E : last_n cap (log ++ [mkLogEntry now command_string was_sent])
                = tl log ++ [mkLogEntry now command_string was_sent]).
    { unfold last_n. rewrite length_app. cbn [List.length].
      destruct (Z.ltb_spec (- cap) 0) as [_|H]; [|lia].
      unfold len in Heq.
      replace (Z.to_nat (Z.max 0 (Z.of_nat (List.length log + 1) + - cap)))
        with 1%nat by lia.
      destruct log as [|e log]; [cbn in Heq; lia | reflexivity]. }
    rewrite E. split; [reflexivity|]. split; [reflexivity|].
    split; [|split; [apply last_last | split; [lia | reflexivity]]].
    rewrite len_app. unfold len in *.
    destruct log as [|e log]; cbn [tl List.length] in *; lia.
  - rewrite len_app in Hle.
    split; [reflexivity|]. split; [reflexivity|].
    split; [rewrite len_app; lia|].
    split; [apply last_last|]. split; [reflexivity | lia].
Qed.

Lemma log_command_keeps_the_latest_witness :
  len (command_log
         (state_of (_log_command 2 "$HOME$" false Scenario.four_queued)))
    <= max_log_size Scenario.four_queued.
Proof.
  refine (proj1 (proj2 (proj2
            (log_command_keeps_the_latest 2 "$HOME$" false
               Scenario.four_queued _ _))));
    cbn; lia.
Defined.

(** X16. [get_command_log(count)] returns the latest [count] entries, or
    the whole log when it has fewer, for a positive [count].  For
    [count = 0] it returns the whole log, not none of it; for a
    negative [count] it returns the log without its first [-count]
    entries. *)
Theorem get_command_log_returns_latest (count : Z) (c : t) :
  (0 < count ->
   (exists older, command_log c = older ++ get_command_log count c) /\
   len (get_command_log count c) = Z.min count (len (command_log c))) /\
  (count = 0 -> get_command_log count c = command_log c) /\
  (count < 0 ->
   get_command_log count c = skipn (Z.to_nat (- count)) (command_log c)).
Proof.
  unfold get_command_log. split; [apply last_n_suffix|]. split.
  - intros ->. unfold last_n. cbn [Z.opp Z.ltb Z.compare].
    rewrite Z.min_l by lia. reflexivity.
  - intro H. unfold last_n.
    destruct (Z.ltb_spec (- count) 0) as [H'|_]; [lia|].
    destruct (Z.le_ge_cases (- count) (Z.of_nat (List.length (command_log c))))
      as [Hle|Hge].
    + now rewrite Z.min_l by exact Hle.
    + rewrite Z.min_r by exact Hge. rewrite Nat2Z.id.
      rewrite skipn_all. symmetry. apply skipn_all2. lia.
Qed.

End CommandLog.

(** ** The communicator, further *)

Section CommunicatorEdges.

Import ESP32Communicator.

(** X17. Off line, nothing is sent.  On a communicator that is not
    connected, [send_command] returns [False] for every command, priority
    or not, an emergency stop included; it touches neither the link nor
    the queue nor the watchdog, and records the command in the log as not
    sent. *)
Theorem send_command_offline_only_logs
    (now : Q) (tx : ESP32Serial.Transport) (command_string : string)
    (priority : bool) (c : t)
    (Hoffline : is_connected c = false) :
  let c' := state_of (_log_command now command_string false c) in
  send_command now tx command_string priority c = Returns false c' /\
  serial_link c' = serial_link c /\
  motion_queue c' = motion_queue c /\
  watchdog c' = watchdog c /\
  is_connected c' = false /\
  (len (command_log c) < max_log_size c ->
   command_log c' = command_log c ++ [mkLogEntry now command_string false]).
Proof.
  cbv zeta. unfold send_command, _log_command. run_method.
  rewrite Hoffline. cbn.
  destruct c as [ic sl mq wd log cap ew rn]; cbn in *. subst ic.
  destruct (Z.gtb_spec (len (log ++ [mkLogEntry now command_string false]))
              cap) as [Hgt|Hle]; cbn; repeat split; try reflexivity.
  rewrite len_app in Hgt. lia.
Qed.

Lemma send_command_offline_only_logs_witness :
  send_command 1 ESP32Serial.TxOk "$STOP$" true (init true)
    = Returns false
        (state_of (_log_command 1 "$STOP$" false (init true))).
Proof.
  exact (proj1 (send_command_offline_only_logs 1 ESP32Serial.TxOk "$STOP$"
                  true (init true) eq_refl)).
Defined.

(** X18. A full queue turns the command away.  On a connected
    communicator whose queue has its lock free and has reached
    [max_size], [send_command] without priority returns [False]; the
    queue afterwards has the same commands, [commands_dropped] one more
    than before, and the same [busy], [current_command] and wire; and
    the log is what it was: the command is not recorded. *)
Theorem send_command_full_queue_drops
    (now : Q) (tx : ESP32Serial.Transport) (command_string : string)
    (c : t) (q : MotionQueue.t)
    (Hconnected : is_connected c = true)
    (Hqueue : motion_queue c = Some q)
    (Hfree : MotionQueue.lock q = false)
    (Hfull : len (MotionQueue.queue q) >= MotionQueue.max_size q) :
  let o := send_command now tx command_string false c in
  returned o = Some false /\
  (exists c', o = Returns false c') /\
  (exists q',
      motion_queue (state_of o) = Some q' /\
      MotionQueue.commands_dropped q' = MotionQueue.commands_dropped q + 1 /\
      MotionQueue.queue q' = MotionQueue.queue q /\
      MotionQueue.busy q' = MotionQueue.busy q /\
      MotionQueue.current_command q' = MotionQueue.current_command q /\
      MotionQueue.commands_sent q' = MotionQueue.commands_sent q /\
      ESP32Serial.wire (MotionQueue.serial q')
        = ESP32Serial.wire (MotionQueue.serial q)) /\
  command_log (state_of o) = command_log c /\
  is_connected (state_of o) = true.
Proof.
  cbv zeta. unfold send_command, on_queue, MotionQueue.add. run_method.
  rewrite Hconnected, Hqueue. cbn.
  destruct q as [l qu m b cur st n1 n2 n3 lk]; cbn in *. subst lk. cbn.
  destruct (Z.geb_spec (len qu) m) as [_|Hlt]; [|lia]. cbn.
  split; [reflexivity|]. split; [eexists; reflexivity|].
  split; [eexists; repeat split; reflexivity|].
  split; [reflexivity|]. destruct c; exact Hconnected.
Qed.

Lemma send_command_full_queue_drops_witness :
  returned (send_command 1 ESP32Serial.TxOk "$HOME$" false
              (put_queue Scenario.full Scenario.connected)) = Some false /\
  option_map MotionQueue.commands_dropped
    (motion_queue
       (state_of (send_command 1 ESP32Serial.TxOk "$HOME$" false
                    (put_queue Scenario.full Scenario.connected))))
  = Some 1 /\
  command_log
    (state_of (send_command 1 ESP32Serial.TxOk "$HOME$" false
                 (put_queue Scenario.full Scenario.connected)))
  = command_log (put_queue Scenario.full Scenario.connected).
Proof.
  assert (Hfull : len (MotionQueue.queue Scenario.full)
                  >= MotionQueue.max_size Scenario.full)
    by (vm_compute; discriminate).
  pose proof (send_command_full_queue_drops 1 ESP32Serial.TxOk "$HOME$"
                (put_queue Scenario.full Scenario.connected)
                Scenario.full eq_refl eq_refl eq_refl Hfull) as H.
  cbv zeta in H.
  destruct H as (Hr & _ & (q' & Hq & Hd & _) & Hlog & _).
  split; [exact Hr|]. split; [|exact Hlog].
  rewrite Hq. cbn [option_map]. rewrite Hd. reflexivity.
Defined.

(** X19. A watchdog timeout stops the control loop, not the robot.  Take
    a turn of [_update_worker] in which the queue's lock is free and the
    watchdog is enabled, healthy, its lock free, and over its timeout.
    The queue is updated, [check] raises and flags the fault, and the
    loop calls the queue's [emergency_stop], where it is left waiting
    for ever: the turn never ends, the queue keeps the commands
    [update] left it and its lock stays held, and no stop frame is
    written after what [update] wrote. *)
Theorem control_loop_hangs_on_timeout
    (now now' : Q) (tx tx' : ESP32Serial.Transport)
    (c : t) (q : MotionQueue.t) (w : Watchdog.t)
    (Hqueue : motion_queue c = Some q)
    (Hqfree : MotionQueue.lock q = false)
    (Hwatchdog : watchdog c = Some w)
    (Henabled : Watchdog.enabled w = true)
    (Hwfree : Watchdog.lock w = false)
    (Hhealthy : Watchdog.fault_detected w = false)
    (Hlate : (Watchdog.timeout w < now' - Watchdog.last_response w)%Q) :
  let o := _update_worker now now' tx tx' c in
  let q1 := state_of (MotionQueue.update now tx q) in
  returned o = None /\
  (exists c', o = Blocks c') /\
  motion_queue (state_of o) = Some (MotionQueue.set_lock_field true q1) /\
  option_map (fun q' => ESP32Serial.wire (MotionQueue.serial q'))
             (motion_queue (state_of o))
    = Some (ESP32Serial.wire (MotionQueue.serial q1)) /\
  option_map Watchdog.fault_detected (watchdog (state_of o)) = Some true.
Proof.
  cbv zeta.
  assert (Hu : exists q1, MotionQueue.update now tx q = Returns tt q1).
  { unfold MotionQueue.update.
    destruct q as [l qu m b cur st n1 n2 n3 lk]; cbn in Hqfree. subst lk.
    run_method. destruct b; [eauto|]. destruct qu as [|cmd rest]; [eauto|].
    cbn. destruct (ESP32Serial.send tx cmd l) as [[|] l']; cbn; eauto. }
  destruct Hu as [q1 Hu].
  pose proof (check_late now' w Hwfree Henabled Hhealthy Hlate) as Hraise.
  unfold _update_worker, try_except, on_queue, on_watchdog. run_method.
  rewrite Hqueue. cbn. rewrite Hu. cbn. rewrite Hwatchdog. cbn.
  rewrite Henabled. cbn. rewrite Hraise. cbn.
  rewrite emergency_stop_blocks. cbn.
  repeat split;
    first [ reflexivity
          | eexists; reflexivity
          | destruct q1; reflexivity
          | destruct w; reflexivity ].
Qed.

Lemma control_loop_hangs_on_timeout_witness :
  returned (_update_worker 3 3 ESP32Serial.TxOk ESP32Serial.TxOk
              Scenario.four_queued) = None.
Proof.
  refine (proj1 (control_loop_hangs_on_timeout 3 3 ESP32Serial.TxOk
                   ESP32Serial.TxOk Scenario.four_queued _ _
                   eq_refl eq_refl eq_refl eq_refl eq_refl eq_refl
                   eq_refl)).
Defined.

End CommunicatorEdges.

Section CommunicatorTeardown.

Import ESP32Communicator.

(** X20. [disconnect()] on a connected communicator whose queue and
    watchdog have their locks free: it returns; the pending commands are
    dropped, the watchdog is disabled, the link is disconnected and the
    communicator is not connected and not ready.  A command in flight
    stays marked busy, and the log and the counters are kept.  From
    then on [send_command] returns [False] whatever it is given, and a
    second [disconnect()] changes nothing. *)
Theorem disconnect_tears_down
    (c : t) (q : MotionQueue.t) (w : Watchdog.t)
    (Hconnected : is_connected c = true)
    (Hqueue : motion_queue c = Some q)
    (Hqfree : MotionQueue.lock q = false)
    (Hwatchdog : watchdog c = Some w)
    (Hwfree : Watchdog.lock w = false) :
  let c' := state_of (disconnect c) in
  let link := ESP32Serial.disconnect (MotionQueue.serial q) in
  disconnect c = Returns tt c' /\
  is_connected c' = false /\ running c' = false /\ is_ready c' = false /\
  motion_queue c'
    = Some (MotionQueue.set_serial link (MotionQueue.set_queue [] q)) /\
  serial_link c' = Some link /\
  ESP32Serial.is_connected link = false /\
  watchdog c' = Some (Watchdog.set_enabled false w) /\
  command_log c' = command_log c /\
  (forall now tx command_string priority,
      returned (send_command now tx command_string priority c')
        = Some false) /\
  disconnect c' = Returns tt c'.
Proof.
  cbv zeta. unfold disconnect, on_queue, on_watchdog, MotionQueue.clear,
    Watchdog.disable, put_link, put_queue, is_ready.
  destruct c as [ic sl mq wd log cap ew rn]; cbn in *.
  subst ic mq wd.
  destruct q as [l qu m b cur st n1 n2 n3 lk]; cbn in *. subst lk.
  destruct w as [tm hb lr lh en fd k tc hc ot orc wlk cs]; cbn in *.
  subst wlk. run_method.
  repeat split; try reflexivity.
  - destruct l as [[|] sr la lt f1 f2 f3 f4 f5 f6]; reflexivity.
  - intros. unfold send_command, _log_command. run_method.
    match goal with |- context [if ?b then _ else _] => destruct b end;
      reflexivity.
Qed.

Lemma disconnect_tears_down_witness :
  is_connected (state_of (disconnect Scenario.in_flight)) = false.
Proof.
  exact (proj1 (proj2 (disconnect_tears_down Scenario.in_flight _ _
                         eq_refl eq_refl eq_refl eq_refl eq_refl))).
Defined.

End CommunicatorTeardown.

(** ** Inbound messages on a connected communicator *)

Section InboundMessages.

Import Wiring.

Lemma state_of_bind {S A B} (m : M S A) (k : A -> M S B) (s : S) :
  state_of (bind m k s) =
    match m s with
    | Returns a s' => state_of (k a s')
    | Raises _ s' => s'
    | Blocks s' => s'
    end.
Proof. unfold bind. destruct (m s); reflexivity. Qed.

(** A call of a queue method from the reader, guarded, leaves the
    watchdog and the response queue alone. *)
Lemma queue_call_keeps_watchdog (m : M MotionQueue.t unit) (s : t) :
  let s' := state_of (guarded (on_self_queue m) s) in
  ESP32Communicator.watchdog (communicator s')
    = ESP32Communicator.watchdog (communicator s) /\
  response_queue s' = response_queue s.
Proof.
  cbv zeta.
  unfold guarded, ESP32Communicator.try_except, on_self_queue,
    on_communicator, ESP32Communicator.on_queue. run_method.
  destruct (ESP32Communicator.motion_queue (communicator s)) as [q|];
    cbn; [|auto].
  destruct (m q) as [[] q'|e q'|q']; cbn; auto.
Qed.

(** The subscribers that are not the generic one leave the watchdog and
    the response queue alone. *)
Lemma dispatch_keeps_watchdog
    (clock : Clock) (calls : list ESP32Serial.Call) (s : t) :
  (forall m, ~ In (ESP32Serial.OnMessage m) calls) ->
  let s' := state_of (dispatch clock calls s) in
  ESP32Communicator.watchdog (communicator s')
    = ESP32Communicator.watchdog (communicator s) /\
  response_queue s' = response_queue s.
Proof.
  cbv zeta. revert s.
  induction calls as [|call calls IH]; intros s Hno; [cbn; auto|].
  assert (Hrest : forall m, ~ In (ESP32Serial.OnMessage m) calls)
    by (intros m Hin; apply (Hno m); right; exact Hin).
  assert (Hcall :
    let s1 := state_of (guarded (subscriber clock call) s) in
    ESP32Communicator.watchdog (communicator s1)
      = ESP32Communicator.watchdog (communicator s) /\
    response_queue s1 = response_queue s).
  { destruct call; cbn [subscriber];
      try apply queue_call_keeps_watchdog;
      try (cbn; auto; fail).
    exfalso. apply (Hno msg). left. reflexivity. }
  cbv zeta in Hcall. cbn [dispatch]. rewrite !state_of_bind.
  destruct (guarded (subscriber clock call) s) as [[] s1|e s1|s1] eqn:E;
    cbn [state_of] in *.
  - destruct (IH s1 Hrest) as [H1 H2]. destruct Hcall as [H3 H4].
    rewrite H1, H2. auto.
  - exact Hcall.
  - exact Hcall.
Qed.

(** The generic subscriber of a communicator with the watchdog enabled,
    for a message other than HB: kick, then the response queue. *)
Lemma generic_call_kicks
    (clock : Clock) (msg : string) (s : t) (w : Watchdog.t) :
  ESP32Communicator.enable_watchdog (communicator s) = true ->
  ESP32Communicator.watchdog (communicator s) = Some w ->
  Watchdog.lock w = false ->
  msg <> "HB" ->
  exists s1,
    guarded (subscriber clock (ESP32Serial.OnMessage msg)) s
      = Returns tt s1 /\
    ESP32Communicator.watchdog (communicator s1)
      = Some (state_of (Watchdog.kick (at_kick clock) w)) /\
    ESP32Communicator.motion_queue (communicator s1)
      = ESP32Communicator.motion_queue (communicator s) /\
    response_queue s1 = response_queue s ++ [msg].
Proof.
  intros He Hw Hfree Hmsg.
  destruct s as [[ic sl mq wd lg cap ew rn] rq cb rs]. cbn in He, Hw.
  subst ew wd.
  destruct w as [tm hb lr lh en fd k tc hc ot orc lk cs]. cbn in Hfree.
  subst lk. unfold Watchdog.kick. run_subscriber.
  destruct (String.eqb_spec msg "HB") as [|_]; [contradiction|].
  destruct fd, orc, cb; cbn; eexists; repeat split; reflexivity.
Qed.

(** X21. Every inbound message but the heartbeat counts as a response.
    On a communicator wired by [connect] with the watchdog enabled and
    its lock free, handling a message other than HB kicks the watchdog
    first, which restarts the response timer and clears a fault, and
    puts the message on the response queue, whatever the message is and
    whatever the specific subscriber does with it afterwards. *)
Theorem message_kicks_watchdog
    (clock : Clock) (msg : string) (s : t)
    (l : ESP32Serial.t) (w : Watchdog.t)
    (Hlink : ESP32Communicator.serial_link (communicator s) = Some l)
    (Hgeneric : ESP32Serial.on_message l = true)
    (Henabled : ESP32Communicator.enable_watchdog (communicator s) = true)
    (Hwatchdog : ESP32Communicator.watchdog (communicator s) = Some w)
    (Hfree : Watchdog.lock w = false)
    (Hmsg : msg <> "HB") :
  let s' := state_of (receive clock msg s) in
  let w' := state_of (Watchdog.kick (at_kick clock) w) in
  ESP32Communicator.watchdog (communicator s') = Some w' /\
  Watchdog.last_response w' = at_kick clock /\
  Watchdog.fault_detected w' = false /\
  response_queue s' = response_queue s ++ [msg].
Proof.
  cbv zeta.
  assert (Hf : Watchdog.fault_detected
                 (state_of (Watchdog.kick (at_kick clock) w)) = false)
    by (rewrite kick_free by exact Hfree; destruct w; reflexivity).
  assert (Hr : Watchdog.last_response
                 (state_of (Watchdog.kick (at_kick clock) w))
               = at_kick clock)
    by (rewrite kick_free by exact Hfree; destruct w; reflexivity).
  assert (H : ESP32Communicator.watchdog
                (communicator (state_of (receive clock msg s)))
              = Some (state_of (Watchdog.kick (at_kick clock) w)) /\
              response_queue (state_of (receive clock msg s))
              = response_queue s ++ [msg]).
  { unfold receive. rewrite state_of_bind. cbn [get]. rewrite Hlink.
    pose proof (handle_message_calls (at_message clock) msg l) as Hd.
    destruct (ESP32Serial._handle_message (at_message clock) msg l)
      as [l' calls].
    cbn [fst snd] in Hd.
    destruct Hd as (specific & -> & _ & Hno & _).
    rewrite Hgeneric. cbn [ESP32Serial.call_if app dispatch].
    rewrite !state_of_bind. cbn [modify]. rewrite !state_of_bind.
    destruct (generic_call_kicks clock msg
                (set_communicator
                   (ESP32Communicator.put_link l' (communicator s)) s) w)
      as (s1 & -> & Hw1 & _ & Hq1); try assumption;
      try (destruct s as [[ic sl [q|] wd lg cap ew rn] rq cb rs];
           cbn in *; assumption).
    destruct (dispatch_keeps_watchdog clock specific s1 Hno) as [H1 H2].
    cbv zeta in H1, H2. rewrite H1, H2, Hw1, Hq1.
    destruct s; auto. }
  destruct H as [H1 H2]. auto.
Qed.

Lemma message_kicks_watchdog_witness :
  response_queue (state_of (receive Scenario.clock "ACK:MOVE" Scenario.wired))
    = response_queue Scenario.wired ++ ["ACK:MOVE"].
Proof.
  refine (proj2 (proj2 (proj2
            (message_kicks_watchdog Scenario.clock "ACK:MOVE" Scenario.wired
               _ _ eq_refl eq_refl eq_refl eq_refl eq_refl _)))).
  discriminate.
Defined.

(** X22. What the device says reaches the queue.  On a communicator
    wired by [connect], with the locks of the watchdog and of the queue
    free: a DONE:MOVE line while a command is in flight releases the
    queue, which is idle again with one more command completed and its
    pending commands untouched; a FAULT line, whatever its reason, drops
    the pending commands and nothing else: a command in flight stays in
    flight, nothing is written to the link and nothing is counted as
    dropped.  In both cases the reader goes on. *)
Theorem device_lines_reach_queue
    (clock : Clock) (reason : string) (s : t)
    (l : ESP32Serial.t) (w : Watchdog.t) (q : MotionQueue.t)
    (Hlink : ESP32Communicator.serial_link (communicator s) = Some l)
    (Hgeneric : ESP32Serial.on_message l = true)
    (Hdone : ESP32Serial.on_done_move l = true)
    (Hfault : ESP32Serial.on_fault l = true)
    (Henabled : ESP32Communicator.enable_watchdog (communicator s) = true)
    (Hwatchdog : ESP32Communicator.watchdog (communicator s) = Some w)
    (Hwfree : Watchdog.lock w = false)
    (Hqueue : ESP32Communicator.motion_queue (communicator s) = Some q)
    (Hqfree : MotionQueue.lock q = false) :
  (MotionQueue.busy q = true ->
   exists s' q',
     receive clock "DONE:MOVE" s = Returns tt s' /\
     ESP32Communicator.motion_queue (communicator s') = Some q' /\
     MotionQueue.busy q' = false /\
     MotionQueue.current_command q' = None /\
     MotionQueue.commands_completed q'
       = MotionQueue.commands_completed q + 1 /\
     MotionQueue.queue q' = MotionQueue.queue q) /\
  (exists s' q',
     receive clock ("FAULT:" ++ reason)%string s = Returns tt s' /\
     ESP32Communicator.motion_queue (communicator s') = Some q' /\
     MotionQueue.queue q' = [] /\
     MotionQueue.busy q' = MotionQueue.busy q /\
     MotionQueue.current_command q' = MotionQueue.current_command q /\
     MotionQueue.commands_dropped q' = MotionQueue.commands_dropped q /\
     ESP32Serial.wire (MotionQueue.serial q')
       = ESP32Serial.wire l).
Proof.
  destruct s as [[ic sl mq wd lg cap ew rn] rq cb rs].
  cbn in Hlink, Henabled, Hwatchdog, Hqueue. subst sl ew wd mq.
  destruct l as [cn sr la lt f1 f2 f3 f4 f5 f6].
  cbn in Hgeneric, Hdone, Hfault. subst f6 f2 f4.
  destruct w as [tm hb lr lh en fd k tc hc ot orc lk cs]. cbn in Hwfree.
  subst lk.
  destruct q as [ql qu m b cur st n1 n2 n3 qlk]. cbn in Hqfree. subst qlk.
  split.
  - cbn. intros ->.
    destruct fd, orc, cb; vm_compute; do 2 eexists; repeat split.
  - destruct fd, orc, cb; vm_compute; do 2 eexists; repeat split.
Qed.

Lemma device_lines_reach_queue_witness :
  exists s' q',
    receive Scenario.clock "DONE:MOVE" Scenario.wired_in_flight
      = Returns tt s' /\
    ESP32Communicator.motion_queue (communicator s') = Some q' /\
    MotionQueue.busy q' = false.
Proof.
  destruct (proj1 (device_lines_reach_queue Scenario.clock "LIMIT"
                     Scenario.wired_in_flight _ _ _
                     eq_refl eq_refl eq_refl eq_refl eq_refl eq_refl
                     eq_refl eq_refl eq_refl) eq_refl)
    as (s' & q' & H1 & H2 & H3 & _).
  exists s', q'. auto.
Defined.

(** X23. A heartbeat line stops the reader.  On a communicator wired by
    [connect] with the watchdog enabled and its lock free, handling the
    line HB kicks the watchdog and then calls [heartbeat()], which is
    left waiting for the lock it holds: the call never returns, so the
    reader handles no further line; the message does not reach the
    response queue; and the watchdog's lock stays held. *)
Theorem heartbeat_line_stops_reader
    (clock : Clock) (s : t) (l : ESP32Serial.t) (w : Watchdog.t)
    (Hlink : ESP32Communicator.serial_link (communicator s) = Some l)
    (Hgeneric : ESP32Serial.on_message l = true)
    (Henabled : ESP32Communicator.enable_watchdog (communicator s) = true)
    (Hwatchdog : ESP32Communicator.watchdog (communicator s) = Some w)
    (Hwfree : Watchdog.lock w = false) :
  let o := receive clock "HB" s in
  returned o = None /\
  (exists s', o = Blocks s') /\
  response_queue (state_of o) = response_queue s /\
  exists w',
    ESP32Communicator.watchdog (communicator (state_of o)) = Some w' /\
    Watchdog.lock w' = true /\
    Watchdog.kick_count w' = Watchdog.kick_count w + 1 /\
    Watchdog.heartbeat_count w' = Watchdog.heartbeat_count w + 1 /\
    Watchdog.last_response w' = at_kick clock /\
    Watchdog.last_heartbeat w' = at_heartbeat clock.
Proof.
  cbv zeta.
  destruct s as [[ic sl mq wd lg cap ew rn] rq cb rs].
  cbn in Hlink, Henabled, Hwatchdog. subst sl ew wd.
  destruct l as [cn sr la lt f1 f2 f3 f4 f5 f6].
  cbn in Hgeneric. subst f6.
  destruct w as [tm hb lr lh en fd k tc hc ot orc lk cs]. cbn in Hwfree.
  subst lk.
  destruct fd, orc, mq; vm_compute; repeat split;
    first [reflexivity | eexists; repeat split; reflexivity].
Qed.

Lemma heartbeat_line_stops_reader_witness :
  returned (receive Scenario.clock "HB" Scenario.wired) = None.
Proof.
  exact (proj1 (heartbeat_line_stops_reader Scenario.clock Scenario.wired
                  _ _ eq_refl eq_refl eq_refl eq_refl eq_refl)).
Defined.

End InboundMessages.

(** ** One command at a time *)

Section OneInFlight.

Import MotionQueue.

(** X24. Nothing is sent before DONE:MOVE.  While a command is in flight,
    whatever is added, however often the control loop runs [update] and
    whether or not the queue is cleared, the queue stays busy with the
    same command and not one more frame goes on the wire, until
    [on_done] is called. *)
Theorem nothing_sent_while_busy (ops : list Op) (s : t)
    (Hbusy : busy s = true)
    (Hops : forallb (fun op => match op with
                               | OnDone | EmergencyStop _ => false
                               | _ => true
                               end) ops = true) :
  busy (run ops s) = true /\
  current_command (run ops s) = current_command s /\
  commands_sent (run ops s) = commands_sent s /\
  ESP32Serial.wire (serial (run ops s)) = ESP32Serial.wire (serial s).
Proof.
  revert s Hbusy. induction ops as [|op ops IH]; intros s Hbusy; [auto|].
  cbn in Hops. apply andb_true_iff in Hops as [Hop Hops].
  change (run (op :: ops) s) with (run ops (step op s)).
  assert (H : busy (step op s) = true /\
              current_command (step op s) = current_command s /\
              commands_sent (step op s) = commands_sent s /\
              serial (step op s) = serial s).
  { destruct op; try discriminate Hop; unfold step, add, update, clear;
      destruct s as [l q m b c st n1 n2 n3 [|]]; cbn in Hbusy; subst b;
      run_method; auto.
    destruct (_ >=? _); cbn; auto. }
  destruct H as (H1 & H2 & H3 & H4).
  destruct (IH Hops (step op s) H1) as (I1 & I2 & I3 & I4).
  rewrite I1, I2, I3, I4, H2, H3, H4. auto.
Qed.

Lemma nothing_sent_while_busy_witness :
  ESP32Serial.wire
    (serial
       (run [Add "late"; Update 5 ESP32Serial.TxOk; Clear;
             Update 6 ESP32Serial.TxOk]
          (step (Update 3 ESP32Serial.TxOk) Scenario.two_queued)))
  = ESP32Serial.wire
      (serial (step (Update 3 ESP32Serial.TxOk) Scenario.two_queued)).
Proof.
  exact (proj2 (proj2 (proj2
           (nothing_sent_while_busy
              [Add "late"; Update 5 ESP32Serial.TxOk; Clear;
               Update 6 ESP32Serial.TxOk]
              (step (Update 3 ESP32Serial.TxOk) Scenario.two_queued)
              eq_refl eq_refl)))).
Defined.

End OneInFlight.

Section DisabledWatchdog.

Import Watchdog.

(** X25. A disabled watchdog is silent.  From [disable()] until
    [enable()], whatever else is called and however long the link stays
    silent, no timeout is counted, the timeout subscriber is not called
    and a clear fault flag stays clear. *)
Theorem disabled_watchdog_is_silent (ops : list Op) (s : t)
    (Hoff : enabled s = false)
    (Hops : forallb (fun op => match op with
                               | Enable _ => false
                               | _ => true
                               end) ops = true) :
  enabled (run ops s) = false /\
  timeout_count (run ops s) = timeout_count s /\
  timeout_calls (run ops s) = timeout_calls s /\
  (fault_detected s = false -> fault_detected (run ops s) = false).
Proof.
  revert s Hoff. induction ops as [|op ops IH]; intros s Hoff; [auto|].
  cbn in Hops. apply andb_true_iff in Hops as [Hop Hops].
  change (run (op :: ops) s) with (run ops (step op s)).
  assert (H : enabled (step op s) = false /\
              timeout_count (step op s) = timeout_count s /\
              timeout_calls (step op s) = timeout_calls s /\
              (fault_detected s = false ->
               fault_detected (step op s) = false)).
  { unfold timeout_calls.
    destruct op; try discriminate Hop; unfold step;
      try (rewrite get_stats_blocks; destruct s; cbn in *; auto);
      unfold kick, heartbeat, check, is_healthy, disable, reset,
        set_timeout;
      destruct s as [tm hb lr lh en fd k tc hc ot orc [|] cs];
      cbn in Hoff; subst en; run_method; auto.
    destruct fd; cbn; [|auto]. destruct orc; cbn; repeat split; auto.
    rewrite filter_app, length_app. cbn. lia. }
  destruct H as (H1 & H2 & H3 & H4).
  destruct (IH Hops (step op s) H1) as (I1 & I2 & I3 & I4).
  rewrite I1, I2, I3, H2, H3. repeat split; auto.
Qed.

Lemma disabled_watchdog_is_silent_witness :
  timeout_count
    (run [Check 100; Kick 101; Check 500; Reset 501 501; Check 900]
       (state_of (disable Scenario.watched)))
  = timeout_count (state_of (disable Scenario.watched)).
Proof.
  exact (proj1 (proj2
           (disabled_watchdog_is_silent
              [Check 100; Kick 101; Check 500; Reset 501 501; Check 900]
              (state_of (disable Scenario.watched)) eq_refl eq_refl))).
Defined.

End DisabledWatchdog.

Section CommunicatorEntryPoints.

Import ESP32Communicator.

(** X26. From [connect] to the first command.  A new communicator whose
    port opens is connected and ready, with an empty queue of capacity
    100 and, when asked for, a watchdog with a timeout of 2 and no
    heartbeat monitoring; the first command sent without priority is
    accepted, queued and logged as not yet sent, and is not on the wire
    until the control loop runs.  When no port is found, or the port
    does not open, [connect] returns [False] and the communicator stays
    off line. *)
Theorem connect_then_send
    (watch : bool) (t1 t2 now : Q) (tx : ESP32Serial.Transport)
    (command_string : string) :
  let c := state_of (connect true true t1 t2 (init watch)) in
  let c' := state_of (send_command now tx command_string false c) in
  connect true true t1 t2 (init watch) = Returns true c /\
  is_connected c = true /\ is_ready c = true /\
  option_map MotionQueue.queue (motion_queue c) = Some [] /\
  option_map MotionQueue.max_size (motion_queue c) = Some 100 /\
  option_map Watchdog.timeout (watchdog c)
    = (if watch then Some 2%Q else None) /\
  option_map Watchdog.enable_heartbeat (watchdog c)
    = (if watch then Some false else None) /\
  send_command now tx command_string false c = Returns true c' /\
  option_map MotionQueue.queue (motion_queue c') = Some [command_string] /\
  command_log c' = [mkLogEntry now command_string false] /\
  option_map ESP32Serial.wire (serial_link c') = Some [] /\
  (forall opened,
      connect false opened t1 t2 (init watch)
        = Returns false (init watch)) /\
  returned (connect true false t1 t2 (init watch)) = Some false /\
  is_connected (state_of (connect true false t1 t2 (init watch))) = false.
Proof.
  cbv zeta. destruct watch; vm_compute; repeat split; reflexivity.
Qed.

End CommunicatorEntryPoints.
